(** * play.core: the program runner and its buffer helpers

    A shallow embedding of [src/index.ts] (the runner: [runner], [boot],
    [loop], [getContext], [calcMetrics]) and of [src/modules/buffer.ts]
    ([get], [set], [merge], [setRect], [mergeRect], [mergeText]),
    followed by the properties of the specification stated on it.

    Conventions of the embedding.
    - A JavaScript number is an exact rational extended with NaN and the
      two infinities ([num]); rounding of doubles and the sign of zero are
      not represented.  Grid sizes, which the code obtains from
      [Math.floor] or from integer settings, are extended integers ([dim]).
    - A JavaScript value is a [value]; an object is a finite map from
      property names to values.  The runner allocates a fresh object for
      every buffer slot, so slots never share an object and the in-place
      [Object.assign] of [merge] is a replacement of the slot's value.
    - An exception is the outcome [Throws], a loop that never ends is the
      outcome [Diverges]; the closure as an exception leaves it is not
      represented.
    - Cell coordinates and buffer indices are integers, as in the [Coord]
      of the specification.
    - Strings are sequences of code units, written with Rocq strings.
    - The renderers, the fps tracker and the storage are not among the
      sources: a call of the renderer is recorded, the other two are an
      interface and a keyed store. *)

From Stdlib Require Import QArith Qround Lqa Ascii String DecimalString.
From stdpp Require Import gmap strings list.

Set Warnings "-register-all".
#[local] Open Scope Z_scope.

(* ================================================================== *)
(** * Numbers *)
(* ================================================================== *)

(** Extended numbers: NaN, -Infinity / +Infinity, or a finite value. *)
Inductive ext (A : Type) : Type :=
  | NaN
  | Inf (negative : bool)
  | Fin (a : A).
Arguments NaN {A}.
Arguments Inf {A} negative.
Arguments Fin {A} a.

Definition num : Type := ext Q.
Definition dim : Type := ext Z.

(** Comparison of two extended numbers; [None] when one of them is NaN
    (every relational operator of the language is then false). *)
Definition ext_compare {A} (cmp : A -> A -> comparison) (x y : ext A)
  : option comparison :=
  match x, y with
  | NaN, _ | _, NaN => None
  | Inf a, Inf b =>
      Some (match a, b with
            | true, false => Lt | false, true => Gt | _, _ => Eq end)
  | Inf true, Fin _ => Some Lt
  | Inf false, Fin _ => Some Gt
  | Fin _, Inf true => Some Gt
  | Fin _, Inf false => Some Lt
  | Fin a, Fin b => Some (cmp a b)
  end.

(** [x < y] *)
Definition ext_lt {A} cmp (x y : ext A) : bool :=
  match ext_compare cmp x y with Some Lt => true | _ => false end.

(** [x >= y] *)
Definition ext_ge {A} cmp (x y : ext A) : bool :=
  match ext_compare cmp x y with Some Gt | Some Eq => true | _ => false end.

(** [x != y] on numbers: true as soon as one side is NaN. *)
Definition ext_neq {A} cmp (x y : ext A) : bool :=
  match ext_compare cmp x y with Some Eq => false | _ => true end.

Definition ext_neg {A} (opp : A -> A) (x : ext A) : ext A :=
  match x with
  | NaN => NaN
  | Inf s => Inf (negb s)
  | Fin a => Fin (opp a)
  end.

Definition ext_add {A} (add : A -> A -> A) (x y : ext A) : ext A :=
  match x, y with
  | NaN, _ | _, NaN => NaN
  | Inf a, Inf b => if Bool.eqb a b then Inf a else NaN
  | Inf a, Fin _ => Inf a
  | Fin _, Inf b => Inf b
  | Fin a, Fin b => Fin (add a b)
  end.

(** An infinity times a finite number of sign [sg]. *)
Definition inf_times (s : bool) {A} (sg : comparison) : ext A :=
  match sg with
  | Eq => NaN
  | Gt => Inf s
  | Lt => Inf (negb s)
  end.

Definition ext_mul {A} (mul : A -> A -> A) (sign : A -> comparison)
  (x y : ext A) : ext A :=
  match x, y with
  | NaN, _ | _, NaN => NaN
  | Inf a, Inf b => Inf (xorb a b)
  | Inf a, Fin b => inf_times a (sign b)
  | Fin a, Inf b => inf_times b (sign a)
  | Fin a, Fin b => Fin (mul a b)
  end.

Definition Qsign (q : Q) : comparison := Qcompare q 0.
Definition Zsign (z : Z) : comparison := Z.compare z 0.

Definition num_lt : num -> num -> bool := ext_lt Qcompare.
Definition num_ge : num -> num -> bool := ext_ge Qcompare.

(** [x > y] *)
Definition num_gt (x y : num) : bool :=
  match ext_compare Qcompare x y with Some Gt => true | _ => false end.
Definition num_add : num -> num -> num := ext_add Qplus.
Definition num_sub (x y : num) : num := num_add x (ext_neg Qopp y).

(** [x / y].  A finite number over zero is an infinity of the sign of the
    numerator, zero over zero is NaN. *)
Definition num_div (x y : num) : num :=
  match x, y with
  | NaN, _ | _, NaN => NaN
  | Inf _, Inf _ => NaN
  | Inf a, Fin b => match Qsign b with Lt => Inf (negb a) | _ => Inf a end
  | Fin _, Inf _ => Fin 0%Q
  | Fin a, Fin b =>
      match Qsign b with
      | Eq => match Qsign a with
              | Eq => NaN
              | Gt => Inf false
              | Lt => Inf true
              end
      | _ => Fin (a / b)%Q
      end
  end.

(** Integer part of a rational, rounding toward zero. *)
Definition Qtrunc (q : Q) : Z := Z.quot (Qnum q) (Zpos (Qden q)).

(** [x % y]: the remainder has the sign of the dividend,
    [x - y * trunc (x / y)]. *)
Definition num_rem (x y : num) : num :=
  match x, y with
  | NaN, _ | _, NaN => NaN
  | Inf _, _ => NaN
  | Fin a, Inf _ => Fin a
  | Fin a, Fin b =>
      match Qsign b with
      | Eq => NaN
      | _ => Fin (a - b * inject_Z (Qtrunc (a / b)))%Q
      end
  end.

(** [Math.floor] *)
Definition math_floor (x : num) : dim :=
  match x with
  | NaN => NaN
  | Inf s => Inf s
  | Fin q => Fin (Qfloor q)
  end.

(** [Math.min] of two numbers: NaN when one of them is. *)
Definition math_min (x y : num) : num :=
  match ext_compare Qcompare x y with
  | None => NaN
  | Some Gt => y
  | Some _ => x
  end.

Definition dim_mul : dim -> dim -> dim := ext_mul Z.mul Zsign.
Definition dim_neq : dim -> dim -> bool := ext_neq Z.compare.

(** An integer grid size read as a number. *)
Definition num_of_dim (d : dim) : num :=
  match d with
  | NaN => NaN
  | Inf s => Inf s
  | Fin z => Fin (inject_Z z)
  end.

Definition num_of_Z (z : Z) : num := Fin (inject_Z z).

(** Truthiness of a number: NaN and zero are falsy. *)
Definition num_truthy (x : num) : bool :=
  match x with
  | NaN => false
  | Inf _ => true
  | Fin q => negb (Qeq_bool q 0)
  end.

(** How many times the body of [for (let j = 0; j < n; j++)] runs;
    [None] when the loop never ends. *)
Definition loop_bound (n : dim) : option nat :=
  match n with
  | NaN => Some 0%nat
  | Inf true => Some 0%nat
  | Inf false => None
  | Fin z => Some (Z.to_nat z)
  end.

(* ================================================================== *)
(** * Outcomes *)
(* ================================================================== *)

Inductive error : Type :=
  | TypeError
  | RangeError
  | Error (message : string)
  | ProgramError (message : string).

Inductive outcome (A : Type) : Type :=
  | Done (a : A)
  | Throws (e : error)
  | Diverges.
Arguments Done {A} a.
Arguments Throws {A} e.
Arguments Diverges {A}.

#[global] Instance outcome_ret : MRet outcome := fun _ a => Done a.

#[global] Instance outcome_bind : MBind outcome := fun _ _ k m =>
  match m with
  | Done a => k a
  | Throws e => Throws e
  | Diverges => Diverges
  end.

(** [for (const a of l) s = f a s], stopping at the first exception. *)
Fixpoint for_each {A St} (f : A -> St -> outcome St) (l : list A) (s : St)
  : outcome St :=
  match l with
  | [] => Done s
  | a :: l' => s' ← f a s; for_each f l' s'
  end.

(** [l.forEach ((a, i) => ...)] with the index of each element. *)
Fixpoint for_each_indexed {A St} (f : nat -> A -> St -> outcome St)
  (i : nat) (l : list A) (s : St) : outcome St :=
  match l with
  | [] => Done s
  | a :: l' => s' ← f i a s; for_each_indexed f (S i) l' s'
  end.

(* ================================================================== *)
(** * Values *)
(* ================================================================== *)

Inductive value : Type :=
  | VUndef
  | VNull
  | VBool (b : bool)
  | VNum (n : num)
  | VStr (s : string)
  | VFun
  | VObj (fields : gmap string value).

(** The [typeof] operator. *)
Definition typeof (v : value) : string :=
  match v with
  | VUndef => "undefined"
  | VNull => "object"
  | VBool _ => "boolean"
  | VNum _ => "number"
  | VStr _ => "string"
  | VFun => "function"
  | VObj _ => "object"
  end.

(** The decimal name of an array index. *)
Definition index_key (n : nat) : string :=
  NilEmpty.string_of_uint (Nat.to_uint n).

Fixpoint string_props (i : nat) (s : string) : gmap string value :=
  match s with
  | EmptyString => ∅
  | String c s' =>
      <[index_key i := VStr (String c EmptyString)]> (string_props (S i) s')
  end.

(** The own enumerable properties copied by a spread [{...v}] and by
    [Object.assign (_, v)]: the fields of an object, the indexed code
    units of a string, nothing for the other values. *)
Definition own_props (v : value) : gmap string value :=
  match v with
  | VObj o => o
  | VStr s => string_props 0 s
  | _ => ∅
  end.

(** [{ ...a, ...b }] *)
Definition spread2 (a b : value) : value := VObj (own_props b ∪ own_props a).

(** [{ ...a, char: c }] *)
Definition spread_char (a c : value) : value :=
  VObj (<["char" := c]> (own_props a)).

(** [Object.assign (target, source)] for the targets [merge] passes: an
    object receives the properties of the source, [null] is a TypeError
    (and so is [undefined]).  A primitive target would be boxed; no
    caller here passes one. *)
Definition object_assign (target source : value) : outcome value :=
  match target with
  | VObj o => Done (VObj (own_props source ∪ o))
  | _ => Throws TypeError
  end.

(** [v.char] of a cell. *)
Definition char_of (v : value) : value :=
  match v with
  | VObj o => default VUndef (o !! "char")
  | _ => VUndef
  end.

(* ================================================================== *)
(** * Arrays *)
(* ================================================================== *)

(** A buffer is an array; each entry represents a cell. *)
Abbreviation Buffer := (list value).

(** [a[i]]: reading past the end gives [undefined]. *)
Definition array_get (a : Buffer) (i : nat) : value :=
  default VUndef (a !! i).

(** [a[i] = v]: writing past the end extends the array. *)
Definition array_set (a : Buffer) (i : nat) (v : value) : Buffer :=
  if decide (i < length a)%nat then <[i := v]> a
  else a ++ replicate (i - length a) VUndef ++ [v].

(** [a.length = n]: truncates or extends the array. *)
Definition array_set_length (a : Buffer) (n : nat) : Buffer :=
  take n a ++ replicate (n - length a) VUndef.

(** The array length denoted by a number, when it is one (the limit an
    engine puts on the length of an array is not represented). *)
Definition as_length (d : dim) : option nat :=
  match d with
  | Fin z => if decide (0 <= z) then Some (Z.to_nat z) else None
  | _ => None
  end.

(* ================================================================== *)
(** * Strings *)
(* ================================================================== *)

Definition newline : ascii := "010"%char.

(** [s.split] on the line break. *)
Fixpoint split_lines (s : string) : list string :=
  match s with
  | EmptyString => [EmptyString]
  | String c s' =>
      if Ascii.eqb c newline then EmptyString :: split_lines s'
      else match split_lines s' with
           | l :: ls => String c l :: ls
           | [] => [String c EmptyString]
           end
  end.

(** [s.split] on the empty separator: the code units of [s]. *)
Fixpoint split_chars (s : string) : list string :=
  match s with
  | EmptyString => []
  | String c s' => String c EmptyString :: split_chars s'
  end.

(* ================================================================== *)
(** * modules/buffer.ts *)
(* ================================================================== *)

Module buffer.

(** A missing [targetCols] / [targetRows] argument counts as 0, both as
    the default value [= 0] of a parameter and as [targetCols || 0]. *)
Definition or_zero (n : option Z) : Z := default 0 n.

(** Safe get function to read from a buffer. *)
Definition get (x y : Z) (target : Buffer) (targetCols targetRows : Z)
  : value :=
  if (x <? 0) || (x >=? targetCols) then VObj ∅
  else if (y <? 0) || (y >=? targetRows) then VObj ∅
  else
    let i := x + y * targetCols in
    array_get target (Z.to_nat i).

Definition set (val : value) (x y : Z) (target : Buffer)
  (targetCols targetRows : option Z) : Buffer :=
  if (x <? 0) || (x >=? or_zero targetCols) then target
  else if (y <? 0) || (y >=? or_zero targetRows) then target
  else
    let i := x + y * or_zero targetCols in
    array_set target (Z.to_nat i) val.

Definition merge (val : value) (x y : Z) (target : Buffer)
  (targetCols targetRows : option Z) : outcome Buffer :=
  if (x <? 0) || (x >=? or_zero targetCols) then Done target
  else if (y <? 0) || (y >=? or_zero targetRows) then Done target
  else
    let i := Z.to_nat (x + y * or_zero targetCols) in
    (* Flatten: *)
    let cell :=
      if String.eqb (typeof (array_get target i)) "object"
      then array_get target i
      else VObj {["char" := array_get target i]} in
    cell' ← object_assign cell val;
    Done (array_set target i cell').

(** The cells [(i, j)] of a rectangle, row after row. *)
Definition rect_cells (x y w h : Z) : list (Z * Z) :=
  j ← seqZ y h; i ← seqZ x w; [(i, j)].

Definition setRect (val : value) (x y w h : Z) (target : Buffer)
  (targetCols targetRows : option Z) : Buffer :=
  foldl (fun t '(i, j) => set val i j t targetCols targetRows)
        target (rect_cells x y w h).

Definition mergeRect (val : value) (x y w h : Z) (target : Buffer)
  (targetCols targetRows : option Z) : outcome Buffer :=
  for_each (fun '(i, j) t => merge val i j t targetCols targetRows)
           (rect_cells x y w h) target.

(** What [mergeText] returns: the offset of the last inserted character
    and, per line, the first and last cell. *)
Record TextInfo : Type := {
  offset_col : Z;
  offset_row : Z;
  wrapInfo : list (value * value);
}.

(** The variables the two [forEach] callbacks of [mergeText] update. *)
Record TextState : Type := {
  col : Z;
  row : Z;
  target : Buffer;
  wrap : list (value * value);
}.

Definition mergeText_char (mergeObj : gmap string value) (x : Z)
  (targetCols targetRows : Z) (charNum : nat) (char : string)
  (s : TextState) : outcome TextState :=
  let col' := x + Z.of_nat charNum in
  t ← merge (VObj (mergeObj ∪ {["char" := VStr char]})) col' (row s)
        (target s) (Some targetCols) (Some targetRows);
  Done {| col := col'; row := row s; target := t; wrap := wrap s |}.

Definition mergeText_line (mergeObj : gmap string value) (x : Z)
  (targetCols targetRows : Z) (line : string) (s : TextState)
  : outcome TextState :=
  s1 ← for_each_indexed (mergeText_char mergeObj x targetCols targetRows)
         0 (split_chars line) s;
  let first := get x (row s1) (target s1) targetCols targetRows in
  let last := get (x + Z.of_nat (String.length line) - 1) (row s1)
                (target s1) targetCols targetRows in
  Done {| col := col s1; row := row s1 + 1; target := target s1;
          wrap := wrap s1 ++ [(first, last)] |}.

(** Merges a text, given as a string or as an object with a [text] field
    and style fields, into the target buffer.  A text that is not a
    string has no [split] to call. *)
Definition mergeText (textObj : value) (x y : Z) (target0 : Buffer)
  (targetCols targetRows : option Z) : outcome (TextInfo * Buffer) :=
  let targetCols := or_zero targetCols in
  let targetRows := or_zero targetRows in
  '(text, mergeObj) ←
    (if String.eqb (typeof textObj) "object" then
       match textObj with
       | VObj o => Done (default VUndef (o !! "text"), delete "text" o)
       | _ => Throws TypeError
       end
     else Done (textObj, ∅));
  match text with
  | VStr text =>
      s ← for_each (mergeText_line mergeObj x targetCols targetRows)
            (split_lines text)
            {| col := x; row := y; target := target0; wrap := [] |};
      (* Adjust for last ++ *)
      let row' := Z.max y (row s - 1) in
      Done ({| offset_col := col s; offset_row := row';
               wrapInfo := wrap s |}, target s)
  | _ => Throws TypeError
  end.

End buffer.

(* ================================================================== *)
(** * modules/num.js *)
(* ================================================================== *)

(** Some GLSL functions ported to JS: those whose results the
    comparisons of their arguments decide. *)
Module numjs.

(** Clamps a value between min and max *)
Definition clamp (v min max : num) : num :=
  if num_lt v min then min
  else if num_gt v max then max
  else v.

(** Returns -1 for negative numbers, +1 for positive numbers, 0 for zero *)
Definition sign (n : num) : num :=
  if num_gt n (num_of_Z 0) then num_of_Z 1
  else if num_lt n (num_of_Z 0) then num_of_Z (-1)
  else num_of_Z 0.



End numjs.

(* ================================================================== *)
(** * The data of the runner *)
(* ================================================================== *)

(** The target element as the document presents it at one moment: its
    node name, what [getComputedStyle] and [parseFloat] give for the
    font, whether a canvas hands out a 2d context, the measured width of
    fifty X (by [measureText] on a canvas, by a temporary span
    otherwise) and its bounding rectangle. *)
Module element.
Record t : Type := {
  nodeName : string;
  fontFamily : string;
  fontSize : num;
  lineHeight : num;
  context2d : bool;
  measureText50 : num;
  spanWidth50 : num;
  rect_left : num;
  rect_top : num;
  rect_width : num;
  rect_height : num;
}.
End element.

Module metrics.
Record t : Type := {
  aspect : num;
  cellWidth : num;
  lineHeight : num;
  fontFamily : string;
  fontSize : num;
}.
End metrics.

(** The settings the caller passes to [runner].  [element] tells whether
    a target element is given; an absent [fps] is [None], an absent
    [cols] or [rows] is 0, an absent style field is [VUndef]. *)
Module settings.
Record t : Type := {
  element : bool;
  cols : N;
  rows : N;
  once : bool;
  fps : option num;
  allowSelect : bool;
  restoreState : bool;
  color : value;
  backgroundColor : value;
  fontWeight : value;
}.
End settings.

Module state.
Record t : Type := {
  time : num;   (* The time in ms *)
  frame : Z;    (* The frame number (int) *)
  cycle : Z;    (* An cycle count for debugging purposes *)
  fps : num;    (* The target fps *)
}.
End state.

Module context.
Record t : Type := {
  frame : Z;
  time : num;
  cols : dim;
  rows : dim;
  metrics : metrics.t;
  width : num;
  height : num;
  settings : settings.t;
  runtime_cycle : Z;
  runtime_fps : num;
}.
End context.

Module pointer.
Record t : Type := {
  x : num;
  y : num;
  pressed : bool;
  px : num;
  py : num;
  ppressed : bool;
}.
End pointer.

Module cursor.
Record t : Type := {
  x : num;
  y : num;
  pressed : bool;
  p_x : num;   (* state of previous frame *)
  p_y : num;
  p_pressed : bool;
}.
End cursor.

Module coord.
Record t : Type := {
  x : Z;
  y : Z;
  index : Z;
}.
End coord.

Inductive EventType : Type := pointerMove | pointerDown | pointerUp.

(** The program: each function is optional ([typeof f == "function"]).
    A function of the program works on the buffer it is handed and on
    [U], the user data together with whatever else the program can
    reach; it may throw. *)
Module program.
Record t (U : Type) : Type := {
  boot : option (context.t -> Buffer -> U -> outcome (Buffer * U));
  pre : option (context.t -> cursor.t -> Buffer -> U -> outcome (Buffer * U));
  main : option (coord.t -> context.t -> cursor.t -> Buffer -> U
                 -> outcome (value * Buffer * U));
  post : option (context.t -> cursor.t -> Buffer -> U -> outcome (Buffer * U));
  handler : EventType
            -> option (context.t -> cursor.t -> Buffer -> U
                       -> outcome (Buffer * U));
}.
Arguments boot {U} _.
Arguments pre {U} _.
Arguments main {U} _.
Arguments post {U} _.
Arguments handler {U} _ _.
End program.

(** A record of the calls the runner makes, in order, with the arguments
    it passes: a ghost of the model used to state what a phase
    received. *)
Inductive Call : Type :=
  | CallBoot (c : context.t) (b : Buffer)
  | CallPre (c : context.t) (cur : cursor.t) (b : Buffer)
  | CallMain (xy : coord.t) (c : context.t) (cur : cursor.t) (b : Buffer)
  | CallPost (c : context.t) (cur : cursor.t) (b : Buffer)
  | CallRender (c : context.t) (b : Buffer)
  | CallHandler (e : EventType) (c : context.t) (cur : cursor.t) (b : Buffer).


(** What the phases of a tick work on: the buffer, the program's data
    and the record of calls. *)
Module world.
Record t (U : Type) : Type := {
  buffer : Buffer;
  userData : U;
  calls : list Call;
}.
Arguments buffer {U} _.
Arguments userData {U} _.
Arguments calls {U} _.
End world.

(** The variables of the closure of [runner] that [boot], [loop] and the
    event listeners share, with the store behind [storage]. *)
Module closure.
Record t (U FPS : Type) : Type := {
  state : state.t;
  pointer : pointer.t;
  eventQueue : list EventType;
  buffer : Buffer;
  metrics : option metrics.t;   (* undefined until [boot] *)
  timeSample : num;
  interval : num;
  timeOffset : num;
  cols : option dim;            (* undefined until the first tick *)
  rows : option dim;
  fps : FPS;
  userData : U;
  storage : gmap string state.t;
  calls : list Call;
}.
Arguments state {U FPS} _.
Arguments pointer {U FPS} _.
Arguments eventQueue {U FPS} _.
Arguments buffer {U FPS} _.
Arguments metrics {U FPS} _.
Arguments timeSample {U FPS} _.
Arguments interval {U FPS} _.
Arguments timeOffset {U FPS} _.
Arguments cols {U FPS} _.
Arguments rows {U FPS} _.
Arguments fps {U FPS} _.
Arguments userData {U FPS} _.
Arguments storage {U FPS} _.
Arguments calls {U FPS} _.
End closure.

(** Modelled from the spec: core/fps is not among the sources.  The
    tracker keeps a trailing measurement of the presented frame rate,
    updated once per accepted tick and read as a number; nothing else
    of it matters here, so it is an interface. *)
Class FpsTracker : Type := {
  FPS : Type;
  fps_new : FPS;
  fps_update : num -> FPS -> FPS;
  fps_fps : FPS -> num;
}.

(** Modelled from the spec: core/storage is not among the sources.  The
    store keeps one state record under a fixed key; [storage_store]
    overwrites it, [storage_restore] reads it into the state and leaves
    the fresh state when there is none. *)
Definition storage_store (key : string) (st : state.t)
  (store : gmap string state.t) : gmap string state.t :=
  <[key := st]> store.

Definition storage_restore (key : string) (st : state.t)
  (store : gmap string state.t) : state.t :=
  default st (store !! key).

(** Name of local storage key *)
Definition LOCAL_STORAGE_KEY_STATE : string := "currentState".

(** A cell with no value at all is just a space *)
Definition EMPTY_CELL : value := VStr " ".

(** Default cell style inserted in case of undefined / null *)
Definition DEFAULT_CELL_STYLE (s : settings.t) : gmap string value :=
  <["color" := settings.color s]>
    (<["backgroundColor" := settings.backgroundColor s]>
       (<["fontWeight" := settings.fontWeight s]> ∅)).

(** [{ ...DEFAULT_CELL_STYLE, char: EMPTY_CELL }] *)
Definition default_cell (s : settings.t) : value :=
  spread_char (VObj (DEFAULT_CELL_STYLE s)) EMPTY_CELL.

(** The value of [settings.fps] in arithmetic: NaN when absent. *)
Definition to_number (n : option num) : num := default NaN n.

(** [settings.fps || 30] *)
Definition fps_or_30 (n : option num) : num :=
  match n with
  | Some f => if num_truthy f then f else num_of_Z 30
  | None => num_of_Z 30
  end.

(** [n || d] for a grid size of the settings. *)
Definition cols_or (n : N) (d : dim) : dim :=
  if decide (n = 0%N) then d else Fin (Z.of_N n).

(* ================================================================== *)
(** * index.ts *)
(* ================================================================== *)

(** Calcs width (fract), height, aspect of a monospaced char.  The
    temporary span of the non-canvas case is appended and removed again
    and leaves the element as it was. *)
Definition calcMetrics (el : element.t) : outcome metrics.t :=
  let fontFamily := element.fontFamily el in
  let fontSize := element.fontSize el in
  let lineHeight := element.lineHeight el in
  cellWidth ←
    (if String.eqb (element.nodeName el) "CANVAS" then
       if element.context2d el
       then Done (num_div (element.measureText50 el) (num_of_Z 50))
       else Throws (Error "Could not get 2d context")
     else Done (num_div (element.spanWidth50 el) (num_of_Z 50)));
  Done {| metrics.aspect := num_div cellWidth lineHeight;
          metrics.cellWidth := cellWidth;
          metrics.lineHeight := lineHeight;
          metrics.fontFamily := fontFamily;
          metrics.fontSize := fontSize |}.

(** The [_update] function of a metrics object [m] returned by
    [calcMetrics (el)]: it measures the element again into [tmp] and
    walks over the keys of [tmp] with an empty loop body.  It returns
    the metrics object as the call leaves it. *)
Definition metrics_update (el : element.t) (m : metrics.t)
  : outcome metrics.t :=
  tmp ← calcMetrics el;
  let _ := tmp in
  Done m.

Section Runner.
Context {U : Type} `{Tracker : FpsTracker}.

(** Build / update the 'context' object (immutable) *)
Definition getContext (st : state.t) (s : settings.t) (m : metrics.t)
  (fps : FPS) (el : element.t) : context.t :=
  let cols :=
    cols_or (settings.cols s)
      (math_floor (num_div (element.rect_width el) (metrics.cellWidth m))) in
  let rows :=
    cols_or (settings.rows s)
      (math_floor (num_div (element.rect_height el) (metrics.lineHeight m))) in
  {| context.frame := state.frame st;
     context.time := state.time st;
     context.cols := cols;
     context.rows := rows;
     context.metrics := m;
     context.width := element.rect_width el;
     context.height := element.rect_height el;
     context.settings := s;
     context.runtime_cycle := state.cycle st;
     context.runtime_fps := fps_fps fps |}.

(** The initial values of the variables of the closure of [runner]. *)
Definition initial_closure (s : settings.t) (userData : U)
  (store : gmap string state.t) : closure.t U FPS :=
  let state0 :=
    {| state.time := num_of_Z 0;
       state.frame := 0;
       state.cycle := 0;
       state.fps := fps_or_30 (settings.fps s) |} in
  let state1 :=
    if settings.restoreState s then
      let r := storage_restore LOCAL_STORAGE_KEY_STATE state0 store in
      {| state.time := state.time r;
         state.frame := state.frame r;
         state.cycle := state.cycle r + 1;
         state.fps := state.fps r |}
    else state0 in
  {| closure.state := state1;
     closure.pointer :=
       {| pointer.x := num_of_Z 0; pointer.y := num_of_Z 0;
          pointer.pressed := false;
          pointer.px := num_of_Z 0; pointer.py := num_of_Z 0;
          pointer.ppressed := false |};
     closure.eventQueue := [];
     closure.buffer := [];
     closure.metrics := None;
     closure.timeSample := num_of_Z 0;
     closure.interval :=
       num_div (num_of_Z 1000) (to_number (settings.fps s));
     closure.timeOffset := state.time state1;
     closure.cols := None;
     closure.rows := None;
     closure.fps := fps_new;
     closure.userData := userData;
     closure.storage := store;
     closure.calls := [] |}.

(** The synchronous part of [runner]: the check of the element and the
    initial values of the closure.  The CSS settings and the selection
    flag it puts on the element are effects on the document only. *)
Definition runner (s : settings.t) (userData : U)
  (store : gmap string state.t) : outcome (closure.t U FPS) :=
  if negb (settings.element s) then Throws (Error "No renderer specified")
  else Done (initial_closure s userData store).

(** The listeners [runner] puts on the element. *)
Definition on_pointermove (el : element.t) (clientX clientY : num)
  (r : closure.t U FPS) : closure.t U FPS :=
  let p := closure.pointer r in
  {| closure.state := closure.state r;
     closure.pointer :=
       {| pointer.x := num_sub clientX (element.rect_left el);
          pointer.y := num_sub clientY (element.rect_top el);
          pointer.pressed := pointer.pressed p;
          pointer.px := pointer.px p; pointer.py := pointer.py p;
          pointer.ppressed := pointer.ppressed p |};
     closure.eventQueue := closure.eventQueue r ++ [pointerMove];
     closure.buffer := closure.buffer r;
     closure.metrics := closure.metrics r;
     closure.timeSample := closure.timeSample r;
     closure.interval := closure.interval r;
     closure.timeOffset := closure.timeOffset r;
     closure.cols := closure.cols r;
     closure.rows := closure.rows r;
     closure.fps := closure.fps r;
     closure.userData := closure.userData r;
     closure.storage := closure.storage r;
     closure.calls := closure.calls r |}.

Definition on_pointer_press (down : bool) (r : closure.t U FPS)
  : closure.t U FPS :=
  let p := closure.pointer r in
  {| closure.state := closure.state r;
     closure.pointer :=
       {| pointer.x := pointer.x p; pointer.y := pointer.y p;
          pointer.pressed := down;
          pointer.px := pointer.px p; pointer.py := pointer.py p;
          pointer.ppressed := pointer.ppressed p |};
     closure.eventQueue :=
       closure.eventQueue r ++ [if down then pointerDown else pointerUp];
     closure.buffer := closure.buffer r;
     closure.metrics := closure.metrics r;
     closure.timeSample := closure.timeSample r;
     closure.interval := closure.interval r;
     closure.timeOffset := closure.timeOffset r;
     closure.cols := closure.cols r;
     closure.rows := closure.rows r;
     closure.fps := closure.fps r;
     closure.userData := closure.userData r;
     closure.storage := closure.storage r;
     closure.calls := closure.calls r |}.

(** [touchHandler]: the first touch point moves the pointer; with no
    touch point [e.touches[0].clientX] is a TypeError. *)
Definition touchHandler (el : element.t) (touches : list (num * num))
  (r : closure.t U FPS) : outcome (closure.t U FPS) :=
  match touches with
  | (clientX, clientY) :: _ => Done (on_pointermove el clientX clientY r)
  | [] => Throws TypeError
  end.

(** ** The steps of [loop] *)

Definition log (c : Call) (w : world.t U) : world.t U :=
  {| world.buffer := world.buffer w;
     world.userData := world.userData w;
     world.calls := world.calls w ++ [c] |}.

(** A call of [pre], [post] or an event handler, when defined. *)
Definition call_phase
  (f : option (context.t -> cursor.t -> Buffer -> U -> outcome (Buffer * U)))
  (c : Call) (ctx : context.t) (cur : cursor.t) (w : world.t U)
  : outcome (world.t U) :=
  match f with
  | None => Done w
  | Some f =>
      '(b, u) ← f ctx cur (world.buffer w) (world.userData w);
      Done {| world.buffer := b; world.userData := u;
              world.calls := world.calls w ++ [c] |}
  end.

(** [for (let i = 0; i < buffer.length; i++) buffer[i] = cell] *)
Definition fill_cells (cell : value) (b : Buffer) : Buffer :=
  foldl (fun b i => array_set b i cell) b (seq 0 (length b)).

(** [old != new] for a size the closure remembers; [undefined] differs
    from every number. *)
Definition differs (old : option dim) (new : dim) : bool :=
  match old with
  | None => true
  | Some d => dim_neq d new
  end.

(** 1. In case of resize / init normalize the buffer.  A product of the
    sizes that is no array length makes [buffer.length = ...] a
    RangeError. *)
Definition resize (s : settings.t) (ctx : context.t)
  (cols rows : option dim) (b : Buffer)
  : outcome (option dim * option dim * Buffer) :=
  if differs cols (context.cols ctx) || differs rows (context.rows ctx) then
    match as_length (dim_mul (context.cols ctx) (context.rows ctx)) with
    | None => Throws RangeError
    | Some n =>
        Done (Some (context.cols ctx), Some (context.rows ctx),
              fill_cells (default_cell s) (array_set_length b n))
    end
  else Done (cols, rows, b).

(** Fix undefined / null / etc.: [if (cell.char === undefined ||
    cell.char === null) cell.char = EMPTY_CELL]. *)
Definition fix_char (cell : value) : value :=
  match char_of cell with
  | VUndef | VNull => VObj (<["char" := EMPTY_CELL]> (own_props cell))
  | _ => cell
  end.

(** The body of the inner loop of step 3 for one cell. *)
Definition main_cell
  (main : coord.t -> context.t -> cursor.t -> Buffer -> U
          -> outcome (value * Buffer * U))
  (ctx : context.t) (cur : cursor.t) (xy : coord.t) (w : world.t U)
  : outcome (world.t U) :=
  let idx := Z.to_nat (coord.index xy) in
  '(out, b, u) ← main xy ctx cur (world.buffer w) (world.userData w);
  let cell :=
    if String.eqb (typeof out) "object"
       && negb (if out is VNull then true else false)
    then spread2 (array_get b idx) out
    else spread_char (array_get b idx) out in
  Done {| world.buffer := array_set b idx (fix_char cell);
          world.userData := u;
          world.calls :=
            world.calls w ++ [CallMain xy ctx cur (world.buffer w)] |}.

(** 3. Call main(), if defined: row after row, cell after cell.  An
    infinite number of rows or columns never ends (no tick gets there:
    the resize of a grid with an infinite size is a RangeError). *)
Definition main_pass (P : program.t U) (ctx : context.t) (cur : cursor.t)
  (w : world.t U) : outcome (world.t U) :=
  match program.main P with
  | None => Done w
  | Some main =>
      match loop_bound (context.rows ctx) with
      | None => Diverges
      | Some nrows =>
          for_each
            (fun j w =>
               match context.cols ctx with
               | Fin cols =>
                   let offs := Z.of_nat j * cols in
                   for_each
                     (fun i w =>
                        let idx := Z.of_nat i + offs in
                        main_cell main ctx cur
                          {| coord.x := Z.of_nat i; coord.y := Z.of_nat j;
                             coord.index := idx |} w)
                     (seq 0 (Z.to_nat cols)) w
               | Inf false => Diverges
               | _ => Done w
               end)
            (seq 0 nrows) w
      end
  end.

(** 6. Queued events *)
Definition drain_events (P : program.t U) (ctx : context.t)
  (cur : cursor.t) (queue : list EventType) (w : world.t U)
  : outcome (world.t U) :=
  for_each
    (fun type w =>
       call_phase (program.handler P type)
         (CallHandler type ctx cur (world.buffer w)) ctx cur w)
    queue w.

(** Steps 1 to 6 of an accepted tick on the buffer and the program. *)
Definition phases (P : program.t U) (s : settings.t) (ctx : context.t)
  (cur : cursor.t) (r : closure.t U FPS)
  : outcome (option dim * option dim * world.t U) :=
  '(cols, rows, b) ←
    resize s ctx (closure.cols r) (closure.rows r) (closure.buffer r);
  let w := {| world.buffer := b; world.userData := closure.userData r;
              world.calls := closure.calls r |} in
  w ← call_phase (program.pre P) (CallPre ctx cur b) ctx cur w;
  w ← main_pass P ctx cur w;
  w ← call_phase (program.post P) (CallPost ctx cur (world.buffer w))
        ctx cur w;
  let w := log (CallRender ctx (world.buffer w)) w in
  w ← drain_events P ctx cur (closure.eventQueue r) w;
  Done (cols, rows, w).

(** Cursor update.  The canvas might be slightly larger than the number
    of cols/rows, min is required! *)
Definition cursor_update (ctx : context.t) (m : metrics.t) (p : pointer.t)
  : cursor.t :=
  {| cursor.x :=
       math_min (num_sub (num_of_dim (context.cols ctx)) (num_of_Z 1))
                (num_div (pointer.x p) (metrics.cellWidth m));
     cursor.y :=
       math_min (num_sub (num_of_dim (context.rows ctx)) (num_of_Z 1))
                (num_div (pointer.y p) (metrics.lineHeight m));
     cursor.pressed := pointer.pressed p;
     cursor.p_x := num_div (pointer.px p) (metrics.cellWidth m);
     cursor.p_y := num_div (pointer.py p) (metrics.lineHeight m);
     cursor.p_pressed := pointer.ppressed p |}.

(** Pointer: store previous state *)
Definition pointer_store_previous (p : pointer.t) : pointer.t :=
  {| pointer.x := pointer.x p; pointer.y := pointer.y p;
     pointer.pressed := pointer.pressed p;
     pointer.px := pointer.x p; pointer.py := pointer.y p;
     pointer.ppressed := pointer.pressed p |}.

(** Main program loop: the answer to one animation frame signal at time
    [t], with the element as it is then.  The boolean tells whether the
    next signal is requested. *)
Definition loop (P : program.t U) (s : settings.t) (el : element.t)
  (t : num) (r : closure.t U FPS) : outcome (closure.t U FPS * bool) :=
  (* Timing *)
  let delta := num_sub t (closure.timeSample r) in
  if num_lt delta (closure.interval r) then
    (* Skip the frame *)
    Done (r, negb (settings.once s))
  else
    match closure.metrics r with
    | None => Throws TypeError
    | Some m =>
        (* Snapshot of context data *)
        let ctx := getContext (closure.state r) s m (closure.fps r) el in
        (* FPS update *)
        let fps := fps_update t (closure.fps r) in
        (* Timing update *)
        let timeSample :=
          num_sub t (num_rem delta (closure.interval r)) in
        let st :=
          {| state.time := num_add t (closure.timeOffset r);
             state.frame := state.frame (closure.state r) + 1;
             state.cycle := state.cycle (closure.state r);
             state.fps := state.fps (closure.state r) |} in
        let store :=
          storage_store LOCAL_STORAGE_KEY_STATE st (closure.storage r) in
        let cur := cursor_update ctx m (closure.pointer r) in
        let p := pointer_store_previous (closure.pointer r) in
        '(cols, rows, w) ← phases P s ctx cur r;
        Done ({| closure.state := st;
                 closure.pointer := p;
                 closure.eventQueue := [];
                 closure.buffer := world.buffer w;
                 closure.metrics := Some m;
                 closure.timeSample := timeSample;
                 closure.interval := closure.interval r;
                 closure.timeOffset := closure.timeOffset r;
                 closure.cols := cols;
                 closure.rows := rows;
                 closure.fps := fps;
                 closure.userData := world.userData w;
                 closure.storage := store;
                 closure.calls := world.calls w |},
              (* Loop (eventually) *)
              negb (settings.once s))
    end.

(** [boot]: measure, build the first context, call the program's
    [boot] and request the first signal. *)
Definition boot (P : program.t U) (s : settings.t) (el : element.t)
  (r : closure.t U FPS) : outcome (closure.t U FPS) :=
  m ← calcMetrics el;
  let ctx := getContext (closure.state r) s m (closure.fps r) el in
  '(b, u, calls) ←
    match program.boot P with
    | None => Done (closure.buffer r, closure.userData r, closure.calls r)
    | Some f =>
        '(b, u) ← f ctx (closure.buffer r) (closure.userData r);
        Done (b, u, closure.calls r ++ [CallBoot ctx (closure.buffer r)])
    end;
  Done {| closure.state := closure.state r;
          closure.pointer := closure.pointer r;
          closure.eventQueue := closure.eventQueue r;
          closure.buffer := b;
          closure.metrics := Some m;
          closure.timeSample := closure.timeSample r;
          closure.interval := closure.interval r;
          closure.timeOffset := closure.timeOffset r;
          closure.cols := closure.cols r;
          closure.rows := closure.rows r;
          closure.fps := closure.fps r;
          closure.userData := u;
          closure.storage := closure.storage r;
          closure.calls := calls |}.

(** The answers to a sequence of signals, one after the other. *)
Fixpoint run (P : program.t U) (s : settings.t) (el : element.t)
  (signals : list num) (r : closure.t U FPS) : outcome (closure.t U FPS) :=
  match signals with
  | [] => Done r
  | t :: signals' =>
      '(r', _) ← loop P s el t r;
      run P s el signals' r'
  end.

End Runner.

(* ================================================================== *)
(** * Vocabulary of the statements and data of the examples *)
(* ================================================================== *)


(** The text of the example: a, b, a line break, c, d. *)
Definition ab_cd : string :=
  String "a" (String "b" (String newline (String "c" (String "d" EmptyString)))).


(** The character a cell ends up with: a single space in place of
    [undefined] and [null]. *)
Definition or_space (v : value) : value :=
  match v with
  | VUndef | VNull => VStr " "
  | _ => v
  end.

(** The cells of a [cols] by [rows] grid in row-major order, each with
    its index [x + y * cols]. *)
Definition grid_coords (cols rows : Z) : list coord.t :=
  j ← seq 0 (Z.to_nat rows);
  i ← seq 0 (Z.to_nat cols);
  [{| coord.x := Z.of_nat i; coord.y := Z.of_nat j;
      coord.index := Z.of_nat i + Z.of_nat j * cols |}].

(** The program of the example: an X in the cell of index 1, a space
    elsewhere; it touches neither the buffer nor its data. *)
Definition x_at_index_1 {U : Type} : program.t U :=
  {| program.boot := None;
     program.pre := None;
     program.main :=
       Some (fun xy _ _ b u =>
               Done (VStr (if coord.index xy =? 1 then "X" else " "), b, u));
     program.post := None;
     program.handler := fun _ => None |}.

(** A default cell with the character [c]. *)
Definition styled_cell (s : settings.t) (c : string) : value :=
  VObj (<["char" := VStr c]> (DEFAULT_CELL_STYLE s)).

(** A tracker that measures nothing. *)
Definition idle_tracker : FpsTracker :=
  {| FPS := unit;
     fps_new := tt;
     fps_update := fun _ f => f;
     fps_fps := fun _ => num_of_Z 0 |}.

(** A [pre] element of 300 by 200 pixels whose font gives cells of 10 by
    20 pixels. *)
Definition pre_element : element.t :=
  {| element.nodeName := "PRE";
     element.fontFamily := "monospace";
     element.fontSize := num_of_Z 16;
     element.lineHeight := num_of_Z 20;
     element.context2d := false;
     element.measureText50 := NaN;
     element.spanWidth50 := num_of_Z 500;
     element.rect_left := num_of_Z 0;
     element.rect_top := num_of_Z 0;
     element.rect_width := num_of_Z 300;
     element.rect_height := num_of_Z 200 |}.

(** Settings with an element and the given grid size and fps, nothing
    else. *)
Definition plain_settings (cols rows : N) (fps : option num) : settings.t :=
  {| settings.element := true;
     settings.cols := cols;
     settings.rows := rows;
     settings.once := false;
     settings.fps := fps;
     settings.allowSelect := false;
     settings.restoreState := false;
     settings.color := VUndef;
     settings.backgroundColor := VUndef;
     settings.fontWeight := VUndef |}.

(** [runner] followed by [boot], on no user data and an empty store. *)
Definition start `{Tracker : FpsTracker} (P : program.t unit)
  (s : settings.t) (el : element.t) : outcome (closure.t unit FPS) :=
  r ← runner s tt ∅; boot P s el r.

(** The closure [start] ends with (the initial one if it throws). *)
Definition started `{Tracker : FpsTracker} (P : program.t unit)
  (s : settings.t) (el : element.t) : closure.t unit FPS :=
  match start P s el with
  | Done r => r
  | _ => initial_closure s tt ∅
  end.

(** The closure after the signals [ts], when they all complete. *)
Definition after `{Tracker : FpsTracker} {U} (P : program.t U)
  (s : settings.t) (el : element.t) (ts : list num) (r : closure.t U FPS)
  : closure.t U FPS :=
  match run P s el ts r with
  | Done r' => r'
  | _ => r
  end.

(** Metrics, a context and a cursor to call [main] with. *)
Definition sample_metrics : metrics.t :=
  {| metrics.aspect := num_of_Z 1; metrics.cellWidth := num_of_Z 10;
     metrics.lineHeight := num_of_Z 10; metrics.fontFamily := "monospace";
     metrics.fontSize := num_of_Z 10 |}.

Definition sample_context : context.t :=
  getContext (Tracker := idle_tracker)
    {| state.time := num_of_Z 0; state.frame := 0; state.cycle := 0;
       state.fps := num_of_Z 30 |}
    (plain_settings 1 1 None) sample_metrics tt pre_element.

Definition sample_cursor : cursor.t :=
  {| cursor.x := num_of_Z 0; cursor.y := num_of_Z 0;
     cursor.pressed := false; cursor.p_x := num_of_Z 0;
     cursor.p_y := num_of_Z 0; cursor.p_pressed := false |}.

(** A program with every phase: [pre] and [post] leave the buffer as it
    is, [main] returns a dot. *)
Definition dots {U : Type} : program.t U :=
  {| program.boot := None;
     program.pre := Some (fun _ _ b u => Done (b, u));
     program.main := Some (fun _ _ _ b u => Done (VStr ".", b, u));
     program.post := Some (fun _ _ b u => Done (b, u));
     program.handler := fun _ => None |}.




(** The element of the examples after its font has grown: cells of 12
    by 24 pixels. *)
Definition pre_element_larger_font : element.t :=
  {| element.nodeName := "PRE";
     element.fontFamily := "monospace";
     element.fontSize := num_of_Z 20;
     element.lineHeight := num_of_Z 24;
     element.context2d := false;
     element.measureText50 := NaN;
     element.spanWidth50 := num_of_Z 600;
     element.rect_left := num_of_Z 0;
     element.rect_top := num_of_Z 0;
     element.rect_width := num_of_Z 300;
     element.rect_height := num_of_Z 200 |}.

(** The metrics [calcMetrics] gives, or [d] when it throws. *)
Definition measured (d : metrics.t) (el : element.t) : metrics.t :=
  match calcMetrics el with
  | Done m => m
  | _ => d
  end.

(** Whether [(i, j)] is a cell of the grid. *)
Definition in_grid (cols rows i j : Z) : Prop :=
  0 <= i < cols /\ 0 <= j < rows.



(** The object the Flatten step of [merge] makes of a slot that is not
    [null]: the object itself, or [{char: v}]. *)
Definition flat (v : value) : gmap string value :=
  match v with
  | VObj o => o
  | _ => {["char" := v]}
  end.

(** The buffer has an entry for every cell of the grid. *)
Definition covers (cols rows : Z) (b : Buffer) : Prop :=
  cols * rows <= Z.of_nat (length b).

(** The text and the style fields [mergeText] takes from its argument:
    a string is the text, with no style; an object gives its [text]
    field, when that is a string, and its other fields.  Anything else
    has no text to split. *)
Definition text_parts (textObj : value)
  : option (string * gmap string value) :=
  match textObj with
  | VStr s => Some (s, ∅)
  | VObj o =>
      match o !! "text" with
      | Some (VStr s) => Some (s, delete "text" o)
      | _ => None
      end
  | _ => None
  end.





(** A [main] that leaves the buffer it is given as it is. *)
Definition reads_only {U : Type}
  (main : coord.t -> context.t -> cursor.t -> Buffer -> U
          -> outcome (value * Buffer * U)) : Prop :=
  forall xy ctx cur b u, exists out u', main xy ctx cur b u = Done (out, b, u').

(** A cell with a character: an object whose [char] is neither
    [undefined] nor [null]. *)
Definition has_char (v : value) : Prop :=
  exists o c, v = VObj o /\ o !! "char" = Some c /\ c <> VUndef /\ c <> VNull.


(** The element of the examples with a computed line height that is no
    number ([normal]). *)
Definition pre_element_line_height_normal : element.t :=
  {| element.nodeName := "PRE";
     element.fontFamily := "monospace";
     element.fontSize := num_of_Z 16;
     element.lineHeight := NaN;
     element.context2d := false;
     element.measureText50 := NaN;
     element.spanWidth50 := num_of_Z 500;
     element.rect_left := num_of_Z 0;
     element.rect_top := num_of_Z 0;
     element.rect_width := num_of_Z 300;
     element.rect_height := num_of_Z 200 |}.


(** The settings of a run that restores the stored state. *)
Definition restoring_settings (cols rows : N) (fps : option num)
  : settings.t :=
  {| settings.element := true;
     settings.cols := cols;
     settings.rows := rows;
     settings.once := false;
     settings.fps := fps;
     settings.allowSelect := false;
     settings.restoreState := true;
     settings.color := VUndef;
     settings.backgroundColor := VUndef;
     settings.fontWeight := VUndef |}.


(* ================================================================== *)
(** * Properties of the buffer helpers *)
(* ================================================================== *)

(** The index of an in-bounds cell lies within the grid. *)
Lemma index_in_grid (x y cols rows : Z) :
  0 <= x < cols -> 0 <= y < rows ->
  0 <= x + y * cols < cols * rows.
Proof. nia. Qed.

Lemma bounds_check_false (x n : Z) :
  0 <= x < n -> (x <? 0) || (x >=? n) = false.
Proof. intros ?. apply orb_false_iff. split; lia. Qed.

Lemma bounds_check_true (x n : Z) :
  x < 0 \/ n <= x -> (x <? 0) || (x >=? n) = true.
Proof. intros ?. apply orb_true_iff. lia. Qed.

Lemma array_get_lookup (b : Buffer) (i : nat) (v : value) :
  b !! i = Some v -> array_get b i = v.
Proof. unfold array_get. now intros ->. Qed.

Lemma array_set_in_range (b : Buffer) (i : nat) (v : value) :
  (i < length b)%nat -> array_set b i v = <[i := v]> b.
Proof. intros ?. unfold array_set. now rewrite decide_True. Qed.

Lemma array_get_set_eq (b : Buffer) (i : nat) (v : value) :
  array_get (array_set b i v) i = v.
Proof.
  unfold array_get, array_set. destruct (decide (i < length b)%nat).
  - now rewrite list_lookup_insert_eq.
  - rewrite lookup_app_r by lia.
    rewrite lookup_app_r by (rewrite length_replicate; lia).
    rewrite length_replicate.
    now replace (i - length b - (i - length b))%nat with 0%nat by lia.
Qed.

Lemma array_get_set_ne (b : Buffer) (i j : nat) (v : value) :
  i <> j -> (j < length b)%nat ->
  array_get (array_set b i v) j = array_get b j.
Proof.
  intros ? ?. unfold array_get, array_set.
  destruct (decide (i < length b)%nat).
  - now rewrite list_lookup_insert_ne.
  - now rewrite lookup_app_l.
Qed.

Lemma set_out_of_bounds val x y b cols rows :
  x < 0 \/ buffer.or_zero cols <= x \/ y < 0 \/ buffer.or_zero rows <= y ->
  buffer.set val x y b cols rows = b.
Proof.
  intros H. unfold buffer.set.
  destruct ((x <? 0) || (x >=? buffer.or_zero cols)) eqn:Hx; [easy|].
  rewrite bounds_check_true; [easy|].
  apply orb_false_iff in Hx. lia.
Qed.

Lemma merge_out_of_bounds val x y b cols rows :
  x < 0 \/ buffer.or_zero cols <= x \/ y < 0 \/ buffer.or_zero rows <= y ->
  buffer.merge val x y b cols rows = Done b.
Proof.
  intros H. unfold buffer.merge.
  destruct ((x <? 0) || (x >=? buffer.or_zero cols)) eqn:Hx; [easy|].
  rewrite bounds_check_true; [easy|].
  apply orb_false_iff in Hx. lia.
Qed.

(** [merge] on an in-bounds slot that holds an object. *)
Lemma merge_object_slot val x y b cols rows o :
  0 <= x < cols -> 0 <= y < rows ->
  b !! Z.to_nat (x + y * cols) = Some (VObj o) ->
  buffer.merge val x y b (Some cols) (Some rows)
  = Done (<[Z.to_nat (x + y * cols) := VObj (own_props val ∪ o)]> b).
Proof.
  intros Hx Hy Hb. unfold buffer.merge. simpl buffer.or_zero.
  rewrite !bounds_check_false by easy. cbv zeta.
  rewrite (array_get_lookup _ _ _ Hb). simpl.
  now rewrite array_set_in_range by (eapply lookup_lt_Some; eauto).
Qed.

(** [merge] on an in-bounds slot that holds a value that is no object:
    the slot is flattened to [{char: v}] first. *)
Lemma merge_bare_slot val x y b cols rows v :
  0 <= x < cols -> 0 <= y < rows ->
  b !! Z.to_nat (x + y * cols) = Some v ->
  typeof v <> "object" ->
  buffer.merge val x y b (Some cols) (Some rows)
  = Done (<[Z.to_nat (x + y * cols) :=
              VObj (own_props val ∪ {["char" := v]})]> b).
Proof.
  intros Hx Hy Hb Ht. unfold buffer.merge. simpl buffer.or_zero.
  rewrite !bounds_check_false by easy. cbv zeta.
  rewrite (array_get_lookup _ _ _ Hb).
  apply String.eqb_neq in Ht. rewrite Ht. simpl.
  now rewrite array_set_in_range by (eapply lookup_lt_Some; eauto).
Qed.



(** C6.  On an in-bounds slot that holds a bare character [c], [merge]
    leaves the object [{char: c}] overwritten by the fields of the merge
    argument: a field of the argument has the argument's value, any other
    field is the one of [{char: c}], so [char] stays [c] unless the
    argument carries a [char] itself.  [set] stores the given value in
    the slot as it is, and touches no other slot.  Out of bounds, both
    leave the buffer as it was. *)
Theorem set_merge_slot (val : value) (x y : Z) (b : Buffer) (cols rows : Z) :
  let i := Z.to_nat (x + y * cols) in
  (forall c : string,
     0 <= x < cols -> 0 <= y < rows -> b !! i = Some (VStr c) ->
     exists o,
       buffer.merge val x y b (Some cols) (Some rows)
       = Done (<[i := VObj o]> b)
       /\ o = own_props val ∪ {["char" := VStr c]}
       /\ (forall k v, own_props val !! k = Some v -> o !! k = Some v)
       /\ (forall k, own_props val !! k = None ->
             o !! k = if decide (k = "char") then Some (VStr c) else None))
  /\ (0 <= x < cols -> 0 <= y < rows ->
      array_get (buffer.set val x y b (Some cols) (Some rows)) i = val
      /\ forall j, j <> i -> (j < length b)%nat ->
           array_get (buffer.set val x y b (Some cols) (Some rows)) j
           = array_get b j)
  /\ (x < 0 \/ cols <= x \/ y < 0 \/ rows <= y ->
      buffer.set val x y b (Some cols) (Some rows) = b
      /\ buffer.merge val x y b (Some cols) (Some rows) = Done b).
Proof.
  intros i. split; [|split].
  - intros c Hx Hy Hb. eexists. split; [|split; [reflexivity|split]].
    + now apply merge_bare_slot.
    + intros k v Hk. now apply lookup_union_Some_l.
    + intros k Hk. rewrite lookup_union_r by easy.
      destruct (decide (k = "char")) as [->|Hne].
      * apply lookup_singleton_eq.
      * now apply lookup_singleton_ne.
  - intros Hx Hy. unfold buffer.set. simpl buffer.or_zero.
    rewrite !bounds_check_false by easy. cbv zeta. fold i. split.
    + apply array_get_set_eq.
    + intros j Hne Hj. now apply array_get_set_ne.
  - intros H. split.
    + now apply set_out_of_bounds.
    + now apply merge_out_of_bounds.
Qed.

Lemma set_merge_slot_witness :
  buffer.merge (VObj {["color" := VStr "red"]}) 1 0
    [VStr "a"; VStr "b"] (Some 2) (Some 1)
  = Done [VStr "a";
          VObj ({["color" := VStr "red"]} ∪ {["char" := VStr "b"]})]
  /\ array_get (buffer.set (VStr "c") 1 0 [VStr "a"; VStr "b"]
                  (Some 2) (Some 1)) 1 = VStr "c"
  /\ buffer.set (VStr "c") 2 0 [VStr "a"; VStr "b"] (Some 2) (Some 1)
     = [VStr "a"; VStr "b"].
Proof.
  split; [|split].
  - destruct (set_merge_slot (VObj {["color" := VStr "red"]}) 1 0
                [VStr "a"; VStr "b"] 2 1) as [H _].
    destruct (H "b"%string) as (o & Hm & -> & _); [lia | lia | reflexivity |].
    exact Hm.
  - apply (set_merge_slot (VStr "c") 1 0 [VStr "a"; VStr "b"] 2 1); lia.
  - apply (set_merge_slot (VStr "c") 2 0 [VStr "a"; VStr "b"] 2 1). lia.
Defined.

Lemma rect_no_dimensions_set val cells (b : Buffer) :
  foldl (fun t '(i, j) => buffer.set val i j t None None) b cells = b.
Proof.
  induction cells as [|[i j] cells IH]; [easy|]. simpl.
  rewrite set_out_of_bounds by (simpl; lia). exact IH.
Qed.

Lemma rect_no_dimensions_merge val cells (b : Buffer) :
  for_each (fun '(i, j) t => buffer.merge val i j t None None) cells b
  = Done b.
Proof.
  induction cells as [|[i j] cells IH]; [easy|]. simpl.
  rewrite merge_out_of_bounds by (simpl; lia). exact IH.
Qed.

(** C10.  Without the [targetCols] / [targetRows] arguments every
    coordinate is out of bounds: [set] and [merge] leave the buffer as
    it is, and so do [setRect] and [mergeRect], whatever the
    rectangle. *)
Theorem no_dimensions_no_effect (val : value) (x y w h : Z) (b : Buffer) :
  buffer.set val x y b None None = b
  /\ buffer.merge val x y b None None = Done b
  /\ buffer.setRect val x y w h b None None = b
  /\ buffer.mergeRect val x y w h b None None = Done b.
Proof.
  repeat split.
  - apply set_out_of_bounds. simpl. lia.
  - apply merge_out_of_bounds. simpl. lia.
  - apply rect_no_dimensions_set.
  - apply rect_no_dimensions_merge.
Qed.

(** C7.  [mergeText] of the two lines ab and cd at (0,0) into a 2 by 2
    buffer of cells merges a into cell (0,0), b into (1,0), c into (0,1)
    and d into (1,1), keeping the other fields of each cell, and returns
    the offset of the last character, column 1 and row 1 (with the first
    and last cell of each line). *)
Theorem mergeText_example (o0 o1 o2 o3 : gmap string value) :
  let a := VObj ({["char" := VStr "a"]} ∪ o0) in
  let b := VObj ({["char" := VStr "b"]} ∪ o1) in
  let c := VObj ({["char" := VStr "c"]} ∪ o2) in
  let d := VObj ({["char" := VStr "d"]} ∪ o3) in
  buffer.mergeText (VStr ab_cd) 0 0 [VObj o0; VObj o1; VObj o2; VObj o3]
    (Some 2) (Some 2)
  = Done ({| buffer.offset_col := 1; buffer.offset_row := 1;
             buffer.wrapInfo := [(a, b); (c, d)] |},
          [a; b; c; d]).
Proof.
  intros a b c d. unfold buffer.mergeText, ab_cd.
  change (typeof (VStr _)) with "string". simpl String.eqb. cbv beta iota.
  simpl mbind. simpl split_lines. simpl buffer.or_zero.
  unfold for_each, buffer.mergeText_line. simpl split_chars.
  unfold for_each_indexed, buffer.mergeText_char. simpl buffer.row.
  rewrite !(left_id_L ∅ (∪)). reflexivity.
Qed.

(* ================================================================== *)
(** * Properties of the runner *)
(* ================================================================== *)

Lemma bind_Done {A B} (m : outcome A) (k : A -> outcome B) (b : B) :
  m ≫= k = Done b -> exists a, m = Done a /\ k a = Done b.
Proof. destruct m; simpl; intros H; try discriminate. eauto. Qed.

Lemma for_each_app {A St} (f : A -> St -> outcome St) (l1 l2 : list A) s :
  for_each f (l1 ++ l2) s = s' ← for_each f l1 s; for_each f l2 s'.
Proof.
  revert s. induction l1 as [|a l1 IH]; intros s; simpl; [easy|].
  destruct (f a s); simpl; [apply IH | easy | easy].
Qed.

(** A property of the state that every step keeps holds after the loop. *)
Lemma for_each_invariant {A St} (f : A -> St -> outcome St)
  (I : St -> Prop) (l : list A) :
  (forall a s s', a ∈ l -> I s -> f a s = Done s' -> I s') ->
  forall s s', I s -> for_each f l s = Done s' -> I s'.
Proof.
  induction l as [|a l IH]; intros Hf s s' Hs H; simpl in H.
  - now injection H as <-.
  - apply bind_Done in H as (s1 & H1 & H2).
    apply (IH (fun a s s' Ha =>
                 Hf a s s' (proj2 (elem_of_cons _ _ _) (or_intror Ha)))
              s1 s'); [|easy].
    apply (Hf a s s1); [apply elem_of_cons; now left | easy | easy].
Qed.

(** ** Step 1: the buffer after a resize *)

Lemma fill_cells_prefix (cell : value) (b : Buffer) (n : nat) :
  (n <= length b)%nat ->
  foldl (fun b i => array_set b i cell) b (seq 0 n)
  = replicate n cell ++ drop n b.
Proof.
  induction n as [|n IH]; intros Hn; [now rewrite drop_0|].
  rewrite seq_S, foldl_app. simpl. rewrite IH by lia.
  destruct (lookup_lt_is_Some_2 b n) as [v Hv]; [lia|].
  rewrite array_set_in_range
    by (rewrite length_app, length_replicate, length_drop; lia).
  rewrite insert_app_r_alt by (rewrite length_replicate; lia).
  rewrite length_replicate, Nat.sub_diag.
  rewrite (drop_S _ _ _ Hv).
  change (cell :: replicate n cell ++ drop (S n) b)
    with (replicate (S n) cell ++ drop (S n) b).
  rewrite replicate_S_end, <- app_assoc. reflexivity.
Qed.

Lemma fill_cells_all (cell : value) (b : Buffer) :
  fill_cells cell b = replicate (length b) cell.
Proof.
  unfold fill_cells. rewrite fill_cells_prefix by lia.
  now rewrite drop_all, app_nil_r.
Qed.

Lemma array_set_length_length (b : Buffer) (n : nat) :
  length (array_set_length b n) = n.
Proof.
  unfold array_set_length.
  rewrite length_app, length_take, length_replicate. lia.
Qed.

Lemma as_length_Some (d : dim) (n : nat) :
  as_length d = Some n <-> d = Fin (Z.of_nat n).
Proof.
  destruct d as [| |z]; simpl; try (split; discriminate).
  destruct (decide (0 <= z)); split; intros H; try discriminate.
  - injection H as <-. f_equal. lia.
  - injection H as ->. f_equal. lia.
  - injection H as ->. lia.
Qed.


Lemma resize_Done s ctx cols rows (b : Buffer) cols' rows' b' :
  differs cols (context.cols ctx) || differs rows (context.rows ctx) = true ->
  resize s ctx cols rows b = Done (cols', rows', b') ->
  exists n, dim_mul (context.cols ctx) (context.rows ctx) = Fin (Z.of_nat n).
Proof.
  intros Hd H. unfold resize in H. rewrite Hd in H.
  destruct (as_length _) as [n|] eqn:Hn; [|discriminate].
  exists n. now apply as_length_Some.
Qed.

(** ** The calls of a tick *)

Section Calls.
Context {U : Type} `{Tracker : FpsTracker}.









(** An accepted signal: what [loop] returns comes from [phases] run
    with the context and the cursor built from the closure as it was
    when the signal came. *)
Lemma loop_accept_Done P s el t (r r' : closure.t U FPS) next :
  num_lt (num_sub t (closure.timeSample r)) (closure.interval r) = false ->
  loop P s el t r = Done (r', next) ->
  exists m cols rows w,
    closure.metrics r = Some m
    /\ phases P s (getContext (closure.state r) s m (closure.fps r) el)
         (cursor_update (getContext (closure.state r) s m (closure.fps r) el)
            m (closure.pointer r)) r
       = Done (cols, rows, w)
    /\ closure.state r'
       = {| state.time := num_add t (closure.timeOffset r);
            state.frame := state.frame (closure.state r) + 1;
            state.cycle := state.cycle (closure.state r);
            state.fps := state.fps (closure.state r) |}
    /\ closure.timeSample r'
       = num_sub t (num_rem (num_sub t (closure.timeSample r))
                            (closure.interval r))
    /\ closure.interval r' = closure.interval r
    /\ closure.timeOffset r' = closure.timeOffset r
    /\ closure.metrics r' = Some m
    /\ closure.storage r'
       = storage_store LOCAL_STORAGE_KEY_STATE (closure.state r')
           (closure.storage r)
    /\ closure.buffer r' = world.buffer w
    /\ closure.calls r' = world.calls w
    /\ closure.cols r' = cols /\ closure.rows r' = rows
    /\ next = negb (settings.once s).
Proof.
  intros Hacc H. unfold loop in H. rewrite Hacc in H.
  destruct (closure.metrics r) as [m|]; [|discriminate].
  apply bind_Done in H as ([[cols rows] w] & Hp & H).
  injection H as <- <-. exists m, cols, rows, w. simpl. tauto.
Qed.


(** On the first tick the closure remembers no size, and every size
    differs from none. *)
Lemma first_tick_differs (rows : option dim) (ctx : context.t) :
  differs None (context.cols ctx) || differs rows (context.rows ctx) = true.
Proof. reflexivity. Qed.


End Calls.


(** ** Step 3: the per-cell pass *)

Lemma for_each_bind {A B St} (f : B -> St -> outcome St) (g : A -> list B)
  (l : list A) (s : St) :
  for_each f (l ≫= g) s = for_each (fun a s => for_each f (g a) s) l s.
Proof.
  revert s. induction l as [|a l IH]; intros s; [easy|].
  change ((a :: l) ≫= g) with (g a ++ (l ≫= g)).
  rewrite for_each_app. simpl. destruct (for_each f (g a) s); simpl; auto.
Qed.

Lemma for_each_ext {A St} (f g : A -> St -> outcome St) (l : list A) s :
  (forall a s, f a s = g a s) -> for_each f l s = for_each g l s.
Proof.
  intros H. revert s. induction l as [|a l IH]; intros s; [easy|].
  simpl. rewrite H. destruct (g a s); simpl; auto.
Qed.

Lemma for_each_map {A B St} (f : B -> St -> outcome St) (g : A -> B)
  (l : list A) (s : St) :
  for_each f (g <$> l) s = for_each (fun a s => f (g a) s) l s.
Proof.
  revert s. induction l as [|a l IH]; intros s; [easy|].
  simpl. destruct (f (g a) s); simpl; auto.
Qed.

(** The two nested loops of step 3 visit the grid in row-major order. *)
Lemma main_pass_row_major {U} (P : program.t U) main ctx cur cols rows
  (w : world.t U) :
  program.main P = Some main ->
  context.cols ctx = Fin cols -> context.rows ctx = Fin rows ->
  main_pass P ctx cur w
  = for_each (main_cell main ctx cur) (grid_coords cols rows) w.
Proof.
  intros Hmain Hc Hr. unfold main_pass, grid_coords.
  rewrite Hmain, Hr, Hc. simpl loop_bound. cbv iota beta.
  rewrite for_each_bind. apply for_each_ext. intros j w1.
  rewrite for_each_bind. apply for_each_ext. intros i w2.
  simpl. now destruct (main_cell _ _ _ _ _).
Qed.

Lemma fix_char_object (o : gmap string value) :
  fix_char (VObj o)
  = VObj (<["char" := or_space (default VUndef (o !! "char"))]> o).
Proof.
  unfold fix_char. simpl char_of. simpl own_props.
  destruct (o !! "char") as [v|] eqn:E; simpl; [|reflexivity].
  destruct v; simpl; try reflexivity; now rewrite insert_id.
Qed.

Section PerCell.
Context {U : Type} `{Tracker : FpsTracker}.

Lemma drain_events_no_handler (P : program.t U) ctx cur queue
  (w : world.t U) :
  (forall e, program.handler P e = None) ->
  drain_events P ctx cur queue w = Done w.
Proof.
  intros H. unfold drain_events.
  induction queue as [|e queue IH]; [easy|]. simpl. now rewrite H.
Qed.

(** C1.  For every cell of the per-cell pass, with [old] the fields of
    the buffer slot when [main] returns: the slot becomes an object
    [cell].  If [main] returns an object, each field other than [char]
    is the returned one when the result has it and the old one
    otherwise; if [main] returns anything else (a bare character), each
    field other than [char] is the old one and [char] is the returned
    value.  In both cases a [char] that would be [undefined] or [null]
    is a single space.  The pass runs that step on the cells of the
    grid in row-major order, with [index = x + y * cols].  And on a grid
    of 3 columns and 1 row, with
    [main] returning X at index 1 and a space elsewhere, the first tick
    completes with the buffer space, X, space, each with the default
    style. *)
Theorem main_result_merged :
  (forall main ctx cur xy (w : world.t U) out b u,
     main xy ctx cur (world.buffer w) (world.userData w) = Done (out, b, u) ->
     let idx := Z.to_nat (coord.index xy) in
     let old := own_props (array_get b idx) in
     exists cell,
       main_cell main ctx cur xy w
       = Done {| world.buffer := array_set b idx (VObj cell);
                 world.userData := u;
                 world.calls :=
                   world.calls w ++ [CallMain xy ctx cur (world.buffer w)] |}
       /\ (forall fields, out = VObj fields ->
             (forall k, k <> "char" ->
                cell !! k = match fields !! k with
                            | Some v => Some v
                            | None => old !! k
                            end)
             /\ cell !! "char"
                = Some (or_space
                          (default VUndef
                             (match fields !! "char" with
                              | Some v => Some v
                              | None => old !! "char"
                              end))))
       /\ ((forall fields, out <> VObj fields) ->
             (forall k, k <> "char" -> cell !! k = old !! k)
             /\ cell !! "char" = Some (or_space out)))
  /\ (forall (P : program.t U) main ctx cur cols rows w,
        program.main P = Some main ->
        context.cols ctx = Fin cols -> context.rows ctx = Fin rows ->
        main_pass P ctx cur w
        = for_each (main_cell main ctx cur) (grid_coords cols rows) w)
  /\ (forall s el t (r : closure.t U FPS) m,
        settings.cols s = 3%N -> settings.rows s = 1%N ->
        closure.metrics r = Some m ->
        closure.cols r = None ->
        num_lt (num_sub t (closure.timeSample r)) (closure.interval r)
        = false ->
        exists r',
          loop x_at_index_1 s el t r = Done (r', negb (settings.once s))
          /\ closure.buffer r'
             = [styled_cell s " "; styled_cell s "X"; styled_cell s " "]).
Proof.
  split; [|split].
  - intros main ctx cur xy w out b u Hmain idx old.
    unfold main_cell. rewrite Hmain. simpl mbind. fold idx.
    assert (Hcase : (exists fields, out = VObj fields)
                    \/ (forall fields, out <> VObj fields))
      by (destruct out; eauto; right; discriminate).
    destruct Hcase as [[fields ->]|Hno].
    + simpl. unfold spread2. rewrite fix_char_object. fold old.
      eexists. split; [reflexivity|]. split.
      * intros ? [= <-].
        assert (Hu : forall k, (own_props (VObj fields) ∪ old) !! k
                               = match fields !! k with
                                 | Some v => Some v
                                 | None => old !! k
                                 end).
        { intros k. simpl. destruct (fields !! k) eqn:E.
          - now apply lookup_union_Some_l.
          - now apply lookup_union_r. }
        split.
        -- intros k Hk. rewrite lookup_insert_ne by easy. apply Hu.
        -- rewrite lookup_insert_eq, Hu. reflexivity.
      * intros H. now destruct (H fields).
    + replace (_ && _) with false
        by (destruct out; try reflexivity; now destruct (Hno fields)).
      unfold spread_char. rewrite fix_char_object. fold old.
      rewrite lookup_insert_eq. simpl.
      eexists. split; [reflexivity|]. split.
      * intros fields ->. now destruct (Hno fields).
      * intros _. split.
        -- intros k Hk. now rewrite !lookup_insert_ne by easy.
        -- apply lookup_insert_eq.
  - intros P main ctx cur cols rows w. apply main_pass_row_major.
  - intros s el t r m Hc Hr Hm Hcols Hacc. unfold loop. rewrite Hacc, Hm.
    unfold phases, resize, getContext.
    simpl context.cols. simpl context.rows.
    rewrite Hc, Hr, Hcols. simpl.
    rewrite drain_events_no_handler by easy. simpl.
    eexists. split; [reflexivity|]. simpl.
    rewrite fill_cells_all, array_set_length_length.
    reflexivity.
Qed.

End PerCell.

Lemma main_result_merged_witness :
  (exists cell calls,
     main_cell (fun _ _ _ b u => Done (VObj {["color" := VStr "red"]}, b, u))
       sample_context sample_cursor
       {| coord.x := 0; coord.y := 0; coord.index := 0 |}
       {| world.buffer := [VObj {["fontWeight" := VStr "bold"]}];
          world.userData := tt; world.calls := [] |}
     = Done {| world.buffer := [VObj cell]; world.userData := tt;
               world.calls := calls |}
     /\ cell !! "color" = Some (VStr "red")
     /\ cell !! "fontWeight" = Some (VStr "bold")
     /\ cell !! "char" = Some (VStr " "))
  /\ (exists r r',
        start (Tracker := idle_tracker) x_at_index_1
          (plain_settings 3 1 (Some (num_of_Z 30))) pre_element = Done r
        /\ loop x_at_index_1 (plain_settings 3 1 (Some (num_of_Z 30)))
             pre_element (num_of_Z 40) r
           = Done (r', true)
        /\ map char_of (closure.buffer r')
           = [VStr " "; VStr "X"; VStr " "]).
Proof.
  split.
  - edestruct (proj1 (main_result_merged (U := unit) (Tracker := idle_tracker))
                 (fun _ _ _ b u => Done (VObj {["color" := VStr "red"]}, b, u))
                 sample_context sample_cursor
                 {| coord.x := 0; coord.y := 0; coord.index := 0 |}
                 {| world.buffer := [VObj {["fontWeight" := VStr "bold"]}];
                    world.userData := tt; world.calls := [] |})
      as (cell & Hrun & Hobj & _); [reflexivity|].
    exists cell. eexists. split; [exact Hrun|].
    destruct (Hobj _ eq_refl) as [Hk Hchar].
    rewrite (Hk "color") by discriminate.
    rewrite (Hk "fontWeight") by discriminate.
    rewrite Hchar. repeat split.
  - eexists.
    edestruct (proj2 (proj2 (main_result_merged (U := unit)
                               (Tracker := idle_tracker)))
                 (plain_settings 3 1 (Some (num_of_Z 30))) pre_element
                 (num_of_Z 40))
      as (r' & Hloop & Hbuf); cycle 5.
    + exists r'. split; [reflexivity|]. split; [exact Hloop|].
      rewrite Hbuf. reflexivity.
    + reflexivity.
    + reflexivity.
    + reflexivity.
    + reflexivity.
    + reflexivity.
Defined.

(** ** The context of a tick *)

Section Snapshot.
Context {U : Type} `{Tracker : FpsTracker}.


End Snapshot.



(* ================================================================== *)
(** * Throttling *)
(* ================================================================== *)











Section Throttle.
Context {U : Type} `{Tracker : FpsTracker}.





End Throttle.

Section ThrottleClaim.
Context {U : Type} `{Tracker : FpsTracker}.


End ThrottleClaim.



(* ================================================================== *)
(** * The target rate of the settings *)
(* ================================================================== *)

(** C4.  What the runner does with an [fps] that is absent or 0.  The
    state takes the default, [settings.fps || 30]; the interval of the
    throttle is [1000 / settings.fps] all the same.  With [fps] absent
    the interval is NaN and no signal is ever skipped: signals 1 ms
    apart are all accepted.  With [fps] 0 the interval is infinite and
    every signal is skipped: no tick ever runs.  Neither is the
    interval [1000 / 30] of the default rate. *)
Theorem fps_default_not_used_by_throttle :
  (forall `{Tracker : FpsTracker} s (u : unit) store,
     closure.interval (initial_closure s u store)
     = num_div (num_of_Z 1000) (to_number (settings.fps s)))
  /\ fps_or_30 None = num_of_Z 30
  /\ fps_or_30 (Some (num_of_Z 0)) = num_of_Z 30
  /\ num_div (num_of_Z 1000) (to_number None) = NaN
  /\ (forall delta, num_lt delta NaN = false)
  /\ num_div (num_of_Z 1000) (to_number (Some (num_of_Z 0))) = Inf false
  /\ (forall q : Q, num_lt (Fin q) (Inf false) = true)
  /\ (let s := plain_settings 3 1 None in
      let r := started (Tracker := idle_tracker) x_at_index_1 s pre_element in
      let ts := [num_of_Z 1; num_of_Z 2; num_of_Z 3] in
      run x_at_index_1 s pre_element ts r
      = Done (after x_at_index_1 s pre_element ts r)
      /\ state.frame
           (closure.state (after x_at_index_1 s pre_element ts r)) = 3
      /\ state.fps (closure.state r) = num_of_Z 30)
  /\ (let s := plain_settings 3 1 (Some (num_of_Z 0)) in
      let r := started (Tracker := idle_tracker) x_at_index_1 s pre_element in
      let ts := [num_of_Z 40; num_of_Z 80; num_of_Z 100000] in
      run x_at_index_1 s pre_element ts r = Done r
      /\ state.frame (closure.state r) = 0
      /\ state.fps (closure.state r) = num_of_Z 30).
Proof.
  split; [reflexivity|].
  split; [reflexivity|].
  split; [reflexivity|].
  split; [reflexivity|].
  split; [intros [|[]|]; reflexivity|].
  split; [reflexivity|].
  split; [reflexivity|].
  split.
  - intros s r ts.
    split; [vm_compute; reflexivity|].
    split; vm_compute; reflexivity.
  - intros s r ts.
    split; [vm_compute; reflexivity|].
    split; vm_compute; reflexivity.
Qed.

(* ================================================================== *)
(** * The refresh of the metrics *)
(* ================================================================== *)

(** C8.  What [_update] does: it measures the element again and drops
    the result, so the metrics object keeps the fields it had, whatever
    the element has become ([_update] throws when the measurement
    does).  On an element whose font has grown since the first
    measurement the fields after [_update] are the old ones, not those
    of a fresh measurement. *)
Theorem metrics_update_keeps_fields :
  (forall el m,
     match metrics_update el m with
     | Done m' => m' = m
     | Throws e => calcMetrics el = Throws e
     | Diverges => False
     end)
  /\ (forall m0,
        let m := measured m0 pre_element in
        let fresh := measured m0 pre_element_larger_font in
        calcMetrics pre_element = Done m
        /\ calcMetrics pre_element_larger_font = Done fresh
        /\ metrics_update pre_element_larger_font m = Done m
        /\ metrics.cellWidth m = Fin (500 # 50)
        /\ metrics.cellWidth fresh = Fin (600 # 50)
        /\ metrics.fontSize m = Fin (16 # 1)
        /\ metrics.fontSize fresh = Fin (20 # 1)).
Proof.
  split.
  - intros el m. unfold metrics_update.
    destruct (calcMetrics el) eqn:E; simpl; try easy.
    unfold calcMetrics in E.
    destruct (String.eqb _ _), (element.context2d el); discriminate.
  - intros m0 m fresh. repeat split.
Qed.

(* ================================================================== *)
(** * More on the buffer helpers *)
(* ================================================================== *)


Lemma array_set_length_ge (b : Buffer) (i : nat) (v : value) :
  (i < length b)%nat -> length (array_set b i v) = length b.
Proof. intros H. rewrite array_set_in_range by easy. apply length_insert. Qed.

Lemma array_set_twice (b : Buffer) (i : nat) (v v' : value) :
  array_set (array_set b i v) i v' = array_set b i v'.
Proof.
  unfold array_set at 2 3. destruct (decide (i < length b)%nat).
  - rewrite array_set_in_range by (rewrite length_insert; lia).
    apply list_insert_insert_eq.
  - rewrite array_set_in_range
      by (rewrite !length_app, length_replicate; simpl; lia).
    rewrite insert_app_r_alt by lia.
    rewrite insert_app_r_alt by (rewrite length_replicate; lia).
    rewrite length_replicate.
    now replace (i - length b - (i - length b))%nat with 0%nat by lia.
Qed.


Lemma set_in_bounds val x y (b : Buffer) cols rows :
  0 <= x < cols -> 0 <= y < rows ->
  buffer.set val x y b (Some cols) (Some rows)
  = array_set b (Z.to_nat (x + y * cols)) val.
Proof.
  intros Hx Hy. unfold buffer.set. simpl buffer.or_zero.
  now rewrite !bounds_check_false by easy.
Qed.



Lemma in_grid_dec cols rows i j : in_grid cols rows i j \/ ~ in_grid cols rows i j.
Proof. unfold in_grid. lia. Qed.




Lemma merge_cell_null val x y (b : Buffer) cols rows :
  in_grid cols rows x y ->
  array_get b (Z.to_nat (x + y * cols)) = VNull ->
  buffer.merge val x y b (Some cols) (Some rows) = Throws TypeError.
Proof.
  intros [Hx Hy] Hn. unfold buffer.merge. simpl buffer.or_zero.
  rewrite !bounds_check_false by easy. cbv zeta. now rewrite Hn.
Qed.

Lemma merge_cell val x y (b : Buffer) cols rows :
  in_grid cols rows x y ->
  array_get b (Z.to_nat (x + y * cols)) <> VNull ->
  buffer.merge val x y b (Some cols) (Some rows)
  = Done (array_set b (Z.to_nat (x + y * cols))
            (VObj (own_props val
                   ∪ flat (array_get b (Z.to_nat (x + y * cols)))))).
Proof.
  intros [Hx Hy] Hn. unfold buffer.merge. simpl buffer.or_zero.
  rewrite !bounds_check_false by easy. cbv zeta.
  destruct (array_get b _) as [| | | | | |o]; easy.
Qed.

Lemma merge_outside val x y (b : Buffer) cols rows :
  ~ in_grid cols rows x y ->
  buffer.merge val x y b (Some cols) (Some rows) = Done b.
Proof.
  intros H. apply merge_out_of_bounds. unfold in_grid in H. simpl. lia.
Qed.









Lemma union_absorb (m o : gmap string value) : m ∪ (m ∪ o) = m ∪ o.
Proof. now rewrite (assoc_L (∪)), (idemp_L (∪)). Qed.

Lemma merge_Done_not_null val x y (b b1 : Buffer) cols rows :
  in_grid cols rows x y ->
  buffer.merge val x y b (Some cols) (Some rows) = Done b1 ->
  array_get b (Z.to_nat (x + y * cols)) <> VNull.
Proof.
  intros Hin H E. now rewrite merge_cell_null in H.
Qed.

(** X3.  When [merge] of [v1] at [(x, y)] returns, merging [v1] there
    once more changes nothing, and merging [v2] after it gives what one
    [merge] of [{...v1, ...v2}] gives on the buffer before the two. *)
Theorem merge_composes v1 v2 x y (b b1 : Buffer) cols rows :
  buffer.merge v1 x y b (Some cols) (Some rows) = Done b1 ->
  buffer.merge v1 x y b1 (Some cols) (Some rows) = Done b1
  /\ buffer.merge v2 x y b1 (Some cols) (Some rows)
     = buffer.merge (VObj (own_props v2 ∪ own_props v1)) x y b
         (Some cols) (Some rows).
Proof.
  destruct (in_grid_dec cols rows x y) as [Hin|Hout].
  - intros H. pose proof (merge_Done_not_null _ _ _ _ _ _ _ Hin H) as Hn.
    rewrite merge_cell in H by easy. injection H as <-.
    rewrite !merge_cell by (rewrite ?array_get_set_eq; easy).
    rewrite !array_get_set_eq. simpl.
    rewrite !array_set_twice. split.
    + now rewrite union_absorb.
    + now rewrite (assoc_L (∪)).
  - rewrite !merge_outside by easy. now intros [= <-].
Qed.

Lemma merge_composes_witness :
  let v1 := VObj {["color" := VStr "red"]} in
  let v2 := VObj {["fontWeight" := VStr "bold"]} in
  let b1 := [VObj ({["color" := VStr "red"]} ∪ {["char" := VStr "a"]})] in
  buffer.merge v1 0 0 [VStr "a"] (Some 1) (Some 1) = Done b1
  /\ buffer.merge v1 0 0 b1 (Some 1) (Some 1) = Done b1
  /\ buffer.merge v2 0 0 b1 (Some 1) (Some 1)
     = buffer.merge (VObj (own_props v2 ∪ own_props v1)) 0 0 [VStr "a"]
         (Some 1) (Some 1).
Proof.
  intros v1 v2 b1.
  assert (H : buffer.merge v1 0 0 [VStr "a"] (Some 1) (Some 1) = Done b1)
    by reflexivity.
  split; [exact H|]. exact (merge_composes v1 v2 0 0 _ _ 1 1 H).
Defined.










Lemma for_each_indexed_invariant {A St} (f : nat -> A -> St -> outcome St)
  (I : St -> Prop) (l : list A) :
  (forall k a s s', I s -> f k a s = Done s' -> I s') ->
  forall k s s', I s -> for_each_indexed f k l s = Done s' -> I s'.
Proof.
  intros Hf. induction l as [|a l IH]; intros k s s' Hs H; simpl in H.
  - now injection H as <-.
  - apply bind_Done in H as (s1 & H1 & H2).
    apply (IH (S k) s1 s'); [|easy]. eapply Hf; eauto.
Qed.

Lemma set_length val x y (b : Buffer) cols rows :
  covers cols rows b ->
  length (buffer.set val x y b (Some cols) (Some rows)) = length b.
Proof.
  intros Hc. destruct (in_grid_dec cols rows x y) as [[Hx Hy]|Hout].
  - rewrite set_in_bounds by easy. apply array_set_length_ge.
    pose proof (index_in_grid x y cols rows Hx Hy). unfold covers in Hc. lia.
  - rewrite set_out_of_bounds; [easy|]. unfold in_grid in Hout. simpl. lia.
Qed.

Lemma merge_length val x y (b b' : Buffer) cols rows :
  covers cols rows b ->
  buffer.merge val x y b (Some cols) (Some rows) = Done b' ->
  length b' = length b.
Proof.
  intros Hc H. destruct (in_grid_dec cols rows x y) as [Hin|Hout].
  - pose proof (merge_Done_not_null _ _ _ _ _ _ _ Hin H) as Hn.
    rewrite merge_cell in H by easy. injection H as <-.
    destruct Hin as [Hx Hy]. apply array_set_length_ge.
    pose proof (index_in_grid x y cols rows Hx Hy). unfold covers in Hc. lia.
  - rewrite merge_outside in H by easy. now injection H as <-.
Qed.

Lemma covers_length cols rows (b b' : Buffer) :
  length b' = length b -> covers cols rows b -> covers cols rows b'.
Proof. unfold covers. now intros ->. Qed.

(** X6.  On a buffer that has an entry for every cell of the grid,
    [set], [setRect], [merge], [mergeRect] and [mergeText] leave the
    length of the buffer as it is. *)
Theorem operations_keep_length val x y w h (b : Buffer) cols rows :
  covers cols rows b ->
  length (buffer.set val x y b (Some cols) (Some rows)) = length b
  /\ length (buffer.setRect val x y w h b (Some cols) (Some rows)) = length b
  /\ (forall b', buffer.merge val x y b (Some cols) (Some rows) = Done b' ->
                 length b' = length b)
  /\ (forall b', buffer.mergeRect val x y w h b (Some cols) (Some rows)
                 = Done b' -> length b' = length b)
  /\ (forall info b', buffer.mergeText val x y b (Some cols) (Some rows)
                      = Done (info, b') -> length b' = length b).
Proof.
  intros Hc. split; [now apply set_length|]. split; [|split; [|split]].
  - unfold buffer.setRect. generalize (buffer.rect_cells x y w h).
    intros cells. revert b Hc.
    induction cells as [|[i j] cells IH]; intros b Hc; [easy|]. simpl.
    rewrite IH by (eapply covers_length; [apply set_length|]; easy).
    now apply set_length.
  - intros b'. now apply merge_length.
  - intros b'. unfold buffer.mergeRect.
    apply for_each_invariant
      with (I := fun t : Buffer => length t = length b); [|easy].
    intros [i j] t t' _ Ht Hm. rewrite <- Ht.
    eapply merge_length; [|exact Hm]. eapply covers_length; eauto.
  - intros info b' H. unfold buffer.mergeText in H. simpl buffer.or_zero in H.
    apply bind_Done in H as ([text mo] & _ & H).
    destruct text as [| | | |text| |]; try discriminate.
    apply bind_Done in H as (s & Hs & H). injection H as _ <-.
    revert Hs. apply for_each_invariant
      with (I := fun s => length (buffer.target s) = length b); [|easy].
    intros line s1 s2 _ Hs1 Hl. unfold buffer.mergeText_line in Hl.
    apply bind_Done in Hl as (s3 & Hs3 & Hl). injection Hl as <-. simpl.
    revert Hs3. apply for_each_indexed_invariant
      with (I := fun s => length (buffer.target s) = length b); [|easy].
    intros k c s4 s5 Hs4 Hc5. unfold buffer.mergeText_char in Hc5.
    apply bind_Done in Hc5 as (t & Ht & Hc5). injection Hc5 as <-. simpl.
    rewrite <- Hs4. eapply merge_length; [|exact Ht].
    eapply covers_length; eauto.
Qed.

Lemma operations_keep_length_witness :
  let b := [VStr "a"; VStr "b"] in
  covers 2 1 b
  /\ length (buffer.set (VStr "c") 1 0 b (Some 2) (Some 1)) = 2%nat
  /\ length (buffer.setRect (VStr "c") (-1) (-1) 9 9 b (Some 2) (Some 1))
     = 2%nat.
Proof.
  intros b.
  assert (Hc : covers 2 1 b) by (unfold covers; simpl; lia).
  split; [exact Hc|].
  destruct (operations_keep_length (VStr "c") 1 0 9 9 b 2 1 Hc) as (H1 & _).
  destruct (operations_keep_length (VStr "c") (-1) (-1) 9 9 b 2 1 Hc)
    as (_ & H2 & _).
  split; [exact H1|exact H2].
Defined.

Lemma split_chars_length (s : string) :
  length (split_chars s) = String.length s.
Proof. induction s; simpl; congruence. Qed.


Lemma for_each_indexed_cons {A St} (f : nat -> A -> St -> outcome St)
  (k : nat) (a : A) (l : list A) (s : St) :
  for_each_indexed f k (a :: l) s
  = (s' ← f k a s; for_each_indexed f (S k) l s').
Proof. reflexivity. Qed.

Lemma for_each_cons {A St} (f : A -> St -> outcome St)
  (a : A) (l : list A) (s : St) :
  for_each f (a :: l) s = (s' ← f a s; for_each f l s').
Proof. reflexivity. Qed.

Section MergeText.
Variables (mo : gmap string value) (x cols rows : Z).



End MergeText.

Lemma mergeText_parts textObj text mo x y (b : Buffer) cols rows :
  text_parts textObj = Some (text, mo) ->
  buffer.mergeText textObj x y b cols rows
  = (s ← for_each
           (buffer.mergeText_line mo x (buffer.or_zero cols)
              (buffer.or_zero rows))
           (split_lines text)
           {| buffer.col := x; buffer.row := y; buffer.target := b;
              buffer.wrap := [] |};
     Done ({| buffer.offset_col := buffer.col s;
              buffer.offset_row := Z.max y (buffer.row s - 1);
              buffer.wrapInfo := buffer.wrap s |}, buffer.target s)).
Proof.
  unfold text_parts, buffer.mergeText.
  destruct textObj as [| | | |t| |o]; try discriminate.
  - now intros [= -> <-].
  - simpl. destruct (o !! "text") as [[| | | |t| |]|]; try discriminate.
    now intros [= -> <-].
Qed.





(** X9.  [mergeText] throws a TypeError, whatever the position and the
    buffer, on an argument that is neither a string nor an object with a
    string [text]: a number, [undefined], [null], an object without
    [text]. *)
Theorem mergeText_needs_text textObj x y (b : Buffer) cols rows :
  text_parts textObj = None ->
  buffer.mergeText textObj x y b cols rows = Throws TypeError.
Proof.
  unfold text_parts, buffer.mergeText.
  destruct textObj as [| | | |t| |o]; try reflexivity; try discriminate.
  simpl. destruct (o !! "text") as [[| | | |t| |]|]; try reflexivity.
  discriminate.
Qed.

Lemma mergeText_needs_text_witness :
  buffer.mergeText (VNum (num_of_Z 5)) 0 0 [VObj ∅] (Some 1) (Some 1)
  = Throws TypeError
  /\ buffer.mergeText (VObj {["color" := VStr "red"]}) 0 0 [VObj ∅]
       (Some 1) (Some 1) = Throws TypeError
  /\ buffer.mergeText VNull 0 0 [VObj ∅] (Some 1) (Some 1) = Throws TypeError.
Proof.
  split; [|split]; apply mergeText_needs_text; vm_compute; reflexivity.
Defined.

Section NoGrid.
Variables (mo : gmap string value) (x cols rows : Z).
Hypothesis empty_grid : cols <= 0 \/ rows <= 0.

Lemma chars_no_grid (chars : list string) :
  forall (k : nat) (s : buffer.TextState),
    exists s',
      for_each_indexed (buffer.mergeText_char mo x cols rows) k chars s
      = Done s'
      /\ buffer.target s' = buffer.target s
      /\ buffer.row s' = buffer.row s.
Proof.
  induction chars as [|c chars IH]; intros k s; [now exists s|].
  rewrite for_each_indexed_cons.
  change (buffer.mergeText_char mo x cols rows k c s)
    with (t ← buffer.merge (VObj (mo ∪ {["char" := VStr c]}))
                (x + Z.of_nat k) (buffer.row s) (buffer.target s)
                (Some cols) (Some rows);
          Done {| buffer.col := x + Z.of_nat k; buffer.row := buffer.row s;
                  buffer.target := t; buffer.wrap := buffer.wrap s |}).
  rewrite merge_outside by (unfold in_grid; lia). simpl mbind.
  destruct (IH (S k) {| buffer.col := x + Z.of_nat k;
                        buffer.row := buffer.row s;
                        buffer.target := buffer.target s;
                        buffer.wrap := buffer.wrap s |})
    as (s' & Hf & Ht & Hr).
  now exists s'.
Qed.

Lemma lines_no_grid (lines : list string) :
  forall s : buffer.TextState,
    exists s',
      for_each (buffer.mergeText_line mo x cols rows) lines s = Done s'
      /\ buffer.target s' = buffer.target s.
Proof.
  induction lines as [|line lines IH]; intros s; [now exists s|].
  rewrite for_each_cons.
  destruct (chars_no_grid (split_chars line) 0 s) as (s1 & Hc & Ht1 & _).
  unfold buffer.mergeText_line at 2. rewrite Hc. simpl mbind.
  match goal with
  | |- exists s', for_each _ _ ?t = _ /\ _ => destruct (IH t) as (s' & Hf & Ht)
  end.
  exists s'. split; [easy|]. now rewrite Ht.
Qed.

End NoGrid.

(** X10.  Without [targetCols] and [targetRows], [mergeText] of a text
    returns and leaves any buffer as it is, [null] slots included. *)
Theorem mergeText_no_dimensions textObj text mo x y (b : Buffer) :
  text_parts textObj = Some (text, mo) ->
  exists info, buffer.mergeText textObj x y b None None = Done (info, b).
Proof.
  intros Hp. rewrite (mergeText_parts _ _ _ _ _ _ _ _ Hp).
  simpl buffer.or_zero.
  destruct (lines_no_grid mo x 0 0 (or_introl (Z.le_refl 0))
              (split_lines text)
              {| buffer.col := x; buffer.row := y; buffer.target := b;
                 buffer.wrap := [] |}) as (s & Hf & Ht).
  rewrite Hf. simpl mbind. rewrite Ht. now eexists.
Qed.

Lemma mergeText_no_dimensions_witness :
  exists info,
    buffer.mergeText (VStr ab_cd) 0 0 [VNull; VStr "a"] None None
    = Done (info, [VNull; VStr "a"]).
Proof.
  exact (mergeText_no_dimensions (VStr ab_cd) ab_cd ∅ 0 0 _ eq_refl).
Defined.

(* ================================================================== *)
(** * More on the ticks of the runner *)
(* ================================================================== *)

Section Ticks.
Context {U : Type} `{Tracker : FpsTracker}.

(** An accepted signal that completes: the fields of the closure that
    the phases do not decide. *)
Lemma loop_accept_fields P s el t (r r' : closure.t U FPS) next :
  num_lt (num_sub t (closure.timeSample r)) (closure.interval r) = false ->
  loop P s el t r = Done (r', next) ->
  closure.pointer r' = pointer_store_previous (closure.pointer r)
  /\ closure.eventQueue r' = []
  /\ closure.fps r' = fps_update t (closure.fps r).
Proof.
  intros Hacc H. unfold loop in H. rewrite Hacc in H.
  destruct (closure.metrics r) as [m|]; [|discriminate].
  apply bind_Done in H as ([[cols rows] w] & Hp & H).
  now injection H as <- <-.
Qed.

(** X11.  An accepted tick whose grid size differs from the stored one
    throws a RangeError when [cols * rows] of the context is no array
    length (NaN, infinite or negative), at
    [buffer.length = context.cols * context.rows]. *)
Theorem invalid_grid_throws P s el t (r : closure.t U FPS) m :
  let ctx := getContext (closure.state r) s m (closure.fps r) el in
  num_lt (num_sub t (closure.timeSample r)) (closure.interval r) = false ->
  closure.metrics r = Some m ->
  differs (closure.cols r) (context.cols ctx)
  || differs (closure.rows r) (context.rows ctx) = true ->
  as_length (dim_mul (context.cols ctx) (context.rows ctx)) = None ->
  loop P s el t r = Throws RangeError.
Proof.
  intros ctx Hacc Hm Hd Hn. unfold loop. rewrite Hacc, Hm.
  unfold phases, resize. fold ctx. now rewrite Hd, Hn.
Qed.

(** An automatic number of rows with a line height that is no number
    (the computed [line-height] is [normal]) is NaN, and no product
    with it is an array length. *)
Lemma auto_rows_of_NaN st s m (f : FPS) el :
  settings.rows s = 0%N -> metrics.lineHeight m = NaN ->
  let ctx := getContext st s m f el in
  context.rows ctx = NaN
  /\ as_length (dim_mul (context.cols ctx) (context.rows ctx)) = None.
Proof.
  intros Hr Hl ctx.
  assert (E : context.rows ctx = NaN).
  { unfold ctx, getContext. simpl. rewrite Hr, Hl. simpl.
    now destruct (element.rect_height el). }
  split; [exact E|]. rewrite E. now destruct (context.cols ctx) as [|[]|].
Qed.



(** X14.  A runner created with [restoreState] over the store a
    completed accepted tick has written starts from the state of that
    tick: the same [frame], [time] and [fps], [cycle] one more, the time
    offset at the stored [time], and the time sample at 0. *)
Theorem state_resumes P s el t (r r' : closure.t U FPS) next
  (s' : settings.t) (u : U) :
  num_lt (num_sub t (closure.timeSample r)) (closure.interval r) = false ->
  loop P s el t r = Done (r', next) ->
  settings.restoreState s' = true ->
  let r2 := initial_closure (Tracker := Tracker) s' u (closure.storage r') in
  state.frame (closure.state r2) = state.frame (closure.state r')
  /\ state.time (closure.state r2) = state.time (closure.state r')
  /\ state.fps (closure.state r2) = state.fps (closure.state r')
  /\ state.cycle (closure.state r2) = state.cycle (closure.state r') + 1
  /\ closure.timeOffset r2 = state.time (closure.state r')
  /\ closure.timeSample r2 = num_of_Z 0.
Proof.
  intros Hacc Hloop Hrs r2.
  apply loop_accept_Done in Hloop
    as (m & cols & rows & w & _ & _ & _ & _ & _ & _ & _ & Hstore & _);
    [|easy].
  unfold r2, initial_closure. rewrite Hrs, Hstore. simpl.
  unfold storage_restore, storage_store. rewrite lookup_insert_eq. simpl.
  repeat split.
Qed.

(** X15.  A completed accepted tick empties the event queue and stores
    the pointer as the previous one: with no pointer event in between,
    the cursor of the next tick has [p.pressed] and [pressed] equal to
    the [pressed] of this tick, and the [x] and [y] of this tick are its
    [p.x] and [p.y] capped at [cols - 1] and [rows - 1]. *)
Theorem cursor_remembers_previous P s el t (r r' : closure.t U FPS) next m :
  let ctx := getContext (closure.state r) s m (closure.fps r) el in
  let cur := cursor_update ctx m (closure.pointer r) in
  num_lt (num_sub t (closure.timeSample r)) (closure.interval r) = false ->
  closure.metrics r = Some m ->
  loop P s el t r = Done (r', next) ->
  closure.eventQueue r' = []
  /\ forall ctx',
       let cur' := cursor_update ctx' m (closure.pointer r') in
       cursor.p_pressed cur' = cursor.pressed cur
       /\ cursor.pressed cur' = cursor.pressed cur
       /\ cursor.x cur
          = math_min (num_sub (num_of_dim (context.cols ctx)) (num_of_Z 1))
                     (cursor.p_x cur')
       /\ cursor.y cur
          = math_min (num_sub (num_of_dim (context.rows ctx)) (num_of_Z 1))
                     (cursor.p_y cur').
Proof.
  intros ctx cur Hacc Hm Hloop.
  apply loop_accept_fields in Hloop as (Hp & Hq & _); [|easy].
  split; [easy|]. intros ctx' cur'. unfold cur', cur. rewrite Hp.
  repeat split.
Qed.

End Ticks.

Lemma invalid_grid_throws_witness :
  let s := plain_settings 3 0 (Some (num_of_Z 30)) in
  let el := pre_element_line_height_normal in
  let r := started (Tracker := idle_tracker) dots s el in
  closure.metrics r = Some (measured sample_metrics el)
  /\ metrics.lineHeight (measured sample_metrics el) = NaN
  /\ loop dots s el (num_of_Z 40) r = Throws RangeError.
Proof.
  intros s el r.
  split; [vm_compute; reflexivity|].
  split; [vm_compute; reflexivity|].
  apply (invalid_grid_throws (U := unit) (Tracker := idle_tracker)
           dots s el (num_of_Z 40) r (measured sample_metrics el));
    vm_compute; reflexivity.
Defined.



Lemma state_resumes_witness :
  let s := plain_settings 3 1 (Some (num_of_Z 30)) in
  let r := started (Tracker := idle_tracker) dots s pre_element in
  let r' := after dots s pre_element [num_of_Z 40; num_of_Z 80] r in
  let r1 := after dots s pre_element [num_of_Z 40] r in
  let r2 := initial_closure (Tracker := idle_tracker)
              (restoring_settings 3 1 (Some (num_of_Z 30))) tt
              (closure.storage r') in
  loop dots s pre_element (num_of_Z 80) r1 = Done (r', true)
  /\ state.frame (closure.state r2) = 2
  /\ state.time (closure.state r2) = num_of_Z 80
  /\ state.cycle (closure.state r2) = 1
  /\ closure.timeOffset r2 = num_of_Z 80
  /\ closure.timeSample r2 = num_of_Z 0.
Proof.
  intros s r r' r1 r2.
  assert (Hl : loop dots s pre_element (num_of_Z 80) r1 = Done (r', true))
    by (vm_compute; reflexivity).
  split; [exact Hl|].
  destruct (state_resumes (U := unit) (Tracker := idle_tracker)
              dots s pre_element (num_of_Z 80) r1 r' true
              (restoring_settings 3 1 (Some (num_of_Z 30))) tt)
    as (H1 & H2 & _ & H4 & H5 & H6);
    [vm_compute; reflexivity|exact Hl|reflexivity|].
  fold r2 in H1, H2, H4, H5, H6.
  split; [rewrite H1; vm_compute; reflexivity|].
  split; [rewrite H2; vm_compute; reflexivity|].
  split; [rewrite H4; vm_compute; reflexivity|].
  split; [rewrite H5; vm_compute; reflexivity|exact H6].
Defined.

Lemma cursor_remembers_previous_witness :
  let s := plain_settings 3 1 (Some (num_of_Z 30)) in
  let r := on_pointer_press true
             (on_pointermove pre_element (num_of_Z 15) (num_of_Z 5)
                (started (Tracker := idle_tracker) dots s pre_element)) in
  let m := measured sample_metrics pre_element in
  let ctx := getContext (closure.state r) s m (closure.fps r) pre_element in
  let cur := cursor_update ctx m (closure.pointer r) in
  let r' := after dots s pre_element [num_of_Z 40] r in
  loop dots s pre_element (num_of_Z 40) r = Done (r', true)
  /\ pointer.x (closure.pointer r) = num_of_Z 15
  /\ cursor.pressed cur = true
  /\ closure.eventQueue r' = []
  /\ forall ctx',
       let cur' := cursor_update ctx' m (closure.pointer r') in
       cursor.p_pressed cur' = true
       /\ cursor.x cur
          = math_min (num_sub (num_of_dim (context.cols ctx)) (num_of_Z 1))
                     (cursor.p_x cur').
Proof.
  intros s r m ctx cur r'.
  assert (Hl : loop dots s pre_element (num_of_Z 40) r = Done (r', true))
    by (vm_compute; reflexivity).
  assert (Hp : cursor.pressed cur = true) by (vm_compute; reflexivity).
  split; [exact Hl|]. split; [vm_compute; reflexivity|]. split; [exact Hp|].
  destruct (cursor_remembers_previous (U := unit) (Tracker := idle_tracker)
              dots s pre_element (num_of_Z 40) r r' true m) as [Hq Hk];
    [vm_compute; reflexivity|vm_compute; reflexivity|exact Hl|].
  split; [exact Hq|]. intros ctx' cur'.
  destruct (Hk ctx') as (H1 & _ & H3 & _).
  fold ctx cur in H1, H3. fold cur' in H1, H3.
  split; [rewrite H1; exact Hp|exact H3].
Defined.

Lemma Qcompare_refl (a : Q) : (a ?= a)%Q = Eq.
Proof. apply Qeq_alt. reflexivity. Qed.

Lemma math_min_le_l (a b : num) : num_lt a (math_min a b) = false.
Proof.
  unfold math_min, num_lt, ext_lt.
  destruct a as [|[]|a], b as [|[]|b]; simpl; try reflexivity;
    rewrite ?Qcompare_refl; try reflexivity.
  destruct (a ?= b)%Q eqn:E; simpl; rewrite ?Qcompare_refl, ?E; reflexivity.
Qed.

(** X16.  The cursor of a tick is never beyond the last column or the
    last row: [cols - 1 < cursor.x] and [rows - 1 < cursor.y] are false,
    wherever the pointer is and whatever the metrics are. *)
Theorem cursor_within_grid (ctx : context.t) (m : metrics.t) (p : pointer.t) :
  let cur := cursor_update ctx m p in
  num_lt (num_sub (num_of_dim (context.cols ctx)) (num_of_Z 1)) (cursor.x cur)
  = false
  /\ num_lt (num_sub (num_of_dim (context.rows ctx)) (num_of_Z 1))
       (cursor.y cur) = false.
Proof. split; apply math_min_le_l. Qed.

Section Events.
Context {U : Type} `{Tracker : FpsTracker}.





End Events.



(* ================================================================== *)
(** * The order of the per-cell pass *)
(* ================================================================== *)

Lemma or_space_defined (v : value) : or_space v <> VUndef /\ or_space v <> VNull.
Proof. destruct v; split; discriminate. Qed.

Lemma fix_char_has_char (o : gmap string value) : has_char (fix_char (VObj o)).
Proof.
  rewrite fix_char_object. eexists _, _. split; [reflexivity|].
  split; [apply lookup_insert_eq|]. apply or_space_defined.
Qed.

Lemma grid_row_indices (cols : Z) (j : nat) (l : list nat) :
  coord.index
  <$> (i ← l;
       [{| coord.x := Z.of_nat i; coord.y := Z.of_nat j;
           coord.index := Z.of_nat i + Z.of_nat j * cols |}])
  = (fun i => Z.of_nat i + Z.of_nat j * cols) <$> l.
Proof.
  induction l as [|i l IH]; [easy|].
  change ((i :: l) ≫= ?f) with (f i ++ (l ≫= f)).
  rewrite fmap_app, IH. reflexivity.
Qed.

Lemma grid_coords_indices (cols rows : Z) :
  0 <= cols ->
  coord.index <$> grid_coords cols rows
  = Z.of_nat <$> seq 0 (Z.to_nat rows * Z.to_nat cols).
Proof.
  intros Hc. unfold grid_coords. generalize (Z.to_nat rows). intros nr.
  induction nr as [|nr IH]; [easy|].
  replace (S nr * Z.to_nat cols)%nat
    with (nr * Z.to_nat cols + Z.to_nat cols)%nat by lia.
  rewrite (seq_app (nr * Z.to_nat cols) (Z.to_nat cols) 0), fmap_app.
  rewrite seq_S, bind_app, fmap_app, IH. f_equal.
  change ([(0 + nr)%nat] ≫= ?f) with (f (0 + nr)%nat ++ []).
  rewrite app_nil_r, grid_row_indices.
  assert (E : seq (0 + nr * Z.to_nat cols) (Z.to_nat cols)
              = Nat.add (nr * Z.to_nat cols) <$> seq 0 (Z.to_nat cols))
    by (rewrite fmap_add_seq; f_equal; lia).
  rewrite E, <- list_fmap_compose. apply list_fmap_ext. intros _ i _. simpl. nia.
Qed.

Lemma grid_coords_index (cols rows : Z) (k : nat) (xy : coord.t) :
  0 <= cols ->
  grid_coords cols rows !! k = Some xy -> coord.index xy = Z.of_nat k.
Proof.
  intros Hc Hk.
  assert (H : (coord.index <$> grid_coords cols rows) !! k
              = Some (coord.index xy))
    by (rewrite list_lookup_fmap, Hk; reflexivity).
  rewrite grid_coords_indices, list_lookup_fmap in H by easy.
  destruct (seq 0 _ !! k) as [n|] eqn:E; [|discriminate].
  apply lookup_seq in E as [-> _]. now injection H as <-.
Qed.

Lemma grid_coords_length (cols rows : Z) :
  0 <= cols ->
  length (grid_coords cols rows) = (Z.to_nat rows * Z.to_nat cols)%nat.
Proof.
  intros Hc.
  rewrite <- (length_fmap coord.index), grid_coords_indices by easy.
  now rewrite length_fmap, length_seq.
Qed.

Section RowMajor.
Context {U : Type}.
Variables (main : coord.t -> context.t -> cursor.t -> Buffer -> U
                  -> outcome (value * Buffer * U))
          (ctx : context.t) (cur : cursor.t).
Hypothesis main_reads_only : reads_only main.

Lemma main_cell_reads_only (xy : coord.t) (w : world.t U) :
  exists cell u',
    main_cell main ctx cur xy w
    = Done {| world.buffer :=
                array_set (world.buffer w) (Z.to_nat (coord.index xy)) cell;
              world.userData := u';
              world.calls :=
                world.calls w ++ [CallMain xy ctx cur (world.buffer w)] |}
    /\ has_char cell.
Proof.
  destruct (main_reads_only xy ctx cur (world.buffer w) (world.userData w))
    as (out & u' & Hmain).
  unfold main_cell. rewrite Hmain. simpl mbind.
  eexists _, u'. split; [reflexivity|].
  destruct (_ && _); apply fix_char_has_char.
Qed.

Lemma pass_prefix (coords : list coord.t) :
  forall (k0 : nat) (w : world.t U),
    (forall k xy, coords !! k = Some xy ->
                  coord.index xy = Z.of_nat (k0 + k)) ->
    (k0 + length coords <= length (world.buffer w))%nat ->
    exists w' new,
      for_each (main_cell main ctx cur) coords w = Done w'
      /\ length (world.buffer w') = length (world.buffer w)
      /\ take k0 (world.buffer w') = take k0 (world.buffer w)
      /\ drop (k0 + length coords) (world.buffer w')
         = drop (k0 + length coords) (world.buffer w)
      /\ (forall i v, (k0 <= i < k0 + length coords)%nat ->
                      world.buffer w' !! i = Some v -> has_char v)
      /\ world.calls w' = world.calls w ++ new
      /\ forall k xy,
           coords !! k = Some xy ->
           new !! k
           = Some (CallMain xy ctx cur
                     (take (k0 + k) (world.buffer w')
                      ++ drop (k0 + k) (world.buffer w))).
Proof.
  induction coords as [|xy coords IH]; intros k0 w Hidx Hlen.
  - exists w, []. rewrite app_nil_r. repeat split; try easy.
    intros i v Hi. simpl in Hi. lia.
  - simpl in Hlen.
    destruct (main_cell_reads_only xy w) as (cell & u' & Hcell & Hchar).
    rewrite (Hidx 0%nat xy eq_refl), Nat.add_0_r, Nat2Z.id in Hcell.
    rewrite array_set_in_range in Hcell by lia.
    set (w1 := {| world.buffer := <[k0 := cell]> (world.buffer w);
                  world.userData := u';
                  world.calls :=
                    world.calls w ++ [CallMain xy ctx cur (world.buffer w)] |})
      in Hcell.
    destruct (IH (S k0) w1) as (w' & new & Hf & Hl & Ht & Hd & Hc & Hcalls & Hn).
    { intros k xy' Hk. rewrite (Hidx (S k) xy' Hk). f_equal. lia. }
    { simpl. rewrite length_insert. lia. }
    simpl in Hl, Ht, Hd, Hcalls. rewrite length_insert in Hl.
    assert (Ht0 : take k0 (world.buffer w') = take k0 (world.buffer w)).
    { replace k0 with (k0 `min` S k0)%nat at 1 by lia.
      rewrite <- take_take, Ht, take_take.
      replace (k0 `min` S k0)%nat with k0 by lia.
      now apply take_insert_ge. }
    exists w', (CallMain xy ctx cur (world.buffer w) :: new).
    split; [simpl; now rewrite Hcell|]. split; [easy|]. split; [easy|].
    split; [|split; [|split]].
    + replace (k0 + length (xy :: coords))%nat
        with (S (k0 + length coords)) by (simpl; lia).
      rewrite Hd. apply drop_insert_lt. lia.
    + intros i v Hi Hv. destruct (decide (i = k0)) as [->|Hne].
      * assert (E : world.buffer w' !! k0 = Some cell).
        { rewrite <- (lookup_take_lt _ (S k0)) by lia. rewrite Ht.
          rewrite lookup_take_lt by lia.
          apply list_lookup_insert_eq. lia. }
        rewrite E in Hv. now injection Hv as <-.
      * apply (Hc i v); [simpl in Hi; lia|easy].
    + rewrite Hcalls, <- app_assoc. reflexivity.
    + intros [|k] xy' Hk.
      * injection Hk as <-. simpl. rewrite Nat.add_0_r, Ht0.
        now rewrite take_drop.
      * simpl in Hk. simpl. rewrite (Hn k xy' Hk). simpl.
        replace (S (k0 + k)) with (k0 + S k)%nat by lia.
        rewrite drop_insert_lt by lia. reflexivity.
Qed.

End RowMajor.

Section RowMajorPass.
Context {U : Type}.

(** X19.  With a [main] that leaves the buffer as it is, on a buffer of
    [cols * rows] entries, the per-cell pass returns, keeps the length
    of the buffer, and calls [main] once per cell in row-major order:
    call number [k] is for the cell of index [k] and receives a buffer
    whose first [k] entries are already the final ones and whose other
    entries are still those from before the pass. *)
Theorem main_sees_earlier_cells (P : program.t U) main ctx cur
  (cols rows : Z) (w : world.t U) :
  program.main P = Some main -> reads_only main ->
  context.cols ctx = Fin cols -> context.rows ctx = Fin rows ->
  0 <= cols -> 0 <= rows ->
  Z.of_nat (length (world.buffer w)) = cols * rows ->
  exists w' new,
    main_pass P ctx cur w = Done w'
    /\ world.calls w' = world.calls w ++ new
    /\ length (world.buffer w') = length (world.buffer w)
    /\ forall k xy,
         grid_coords cols rows !! k = Some xy ->
         coord.index xy = Z.of_nat k
         /\ new !! k
            = Some (CallMain xy ctx cur
                      (take k (world.buffer w')
                       ++ drop k (world.buffer w))).
Proof.
  intros Hmain Hro Hc Hr Hc0 Hr0 Hlen.
  rewrite (main_pass_row_major P main ctx cur cols rows w Hmain Hc Hr).
  destruct (pass_prefix main ctx cur Hro (grid_coords cols rows) 0 w)
    as (w' & new & Hf & Hl & _ & _ & _ & Hcalls & Hn).
  { intros k xy Hk. now apply grid_coords_index in Hk. }
  { rewrite grid_coords_length by easy. simpl. nia. }
  exists w', new. split; [easy|]. split; [easy|]. split; [easy|].
  intros k xy Hk. split; [now apply grid_coords_index in Hk|].
  now apply Hn.
Qed.

(** X20.  With a [main] that leaves the buffer as it is, on a buffer of
    [cols * rows] entries, after the per-cell pass every entry of the
    buffer is an object whose [char] is neither [undefined] nor
    [null]. *)
Theorem pass_leaves_chars (P : program.t U) main ctx cur
  (cols rows : Z) (w : world.t U) :
  program.main P = Some main -> reads_only main ->
  context.cols ctx = Fin cols -> context.rows ctx = Fin rows ->
  0 <= cols -> 0 <= rows ->
  Z.of_nat (length (world.buffer w)) = cols * rows ->
  exists w',
    main_pass P ctx cur w = Done w'
    /\ Forall has_char (world.buffer w').
Proof.
  intros Hmain Hro Hc Hr Hc0 Hr0 Hlen.
  rewrite (main_pass_row_major P main ctx cur cols rows w Hmain Hc Hr).
  destruct (pass_prefix main ctx cur Hro (grid_coords cols rows) 0 w)
    as (w' & new & Hf & Hl & _ & _ & Hchars & _).
  { intros k xy Hk. now apply grid_coords_index in Hk. }
  { rewrite grid_coords_length by easy. simpl. nia. }
  exists w'. split; [easy|]. apply Forall_lookup. intros i v Hv.
  apply (Hchars i v); [|easy].
  apply lookup_lt_Some in Hv. rewrite grid_coords_length by easy. simpl. nia.
Qed.

End RowMajorPass.

Lemma dots_reads_only : forall main,
  program.main (dots (U := unit)) = Some main -> reads_only main.
Proof.
  intros main [= <-] xy ctx cur b u. now exists (VStr "."), u.
Qed.

Lemma main_sees_earlier_cells_witness :
  let w := {| world.buffer := [VObj ∅; VObj ∅];
              world.userData := tt; world.calls := [] |} in
  let s := plain_settings 2 1 (Some (num_of_Z 30)) in
  let ctx := getContext (Tracker := idle_tracker)
               {| state.time := num_of_Z 0; state.frame := 0;
                  state.cycle := 0; state.fps := num_of_Z 30 |}
               s sample_metrics tt pre_element in
  exists w' new,
    main_pass dots ctx sample_cursor w = Done w'
    /\ world.calls w' = new
    /\ new !! 1%nat
       = Some (CallMain {| coord.x := 1; coord.y := 0; coord.index := 1 |}
                 ctx sample_cursor
                 (take 1 (world.buffer w') ++ [VObj ∅])).
Proof.
  intros w s ctx.
  destruct (main_sees_earlier_cells (U := unit) dots
              (fun _ _ _ b u => Done (VStr ".", b, u)) ctx sample_cursor
              2 1 w eq_refl (dots_reads_only _ eq_refl))
    as (w' & new & Hp & Hc & _ & Hk);
    [vm_compute; reflexivity|vm_compute; reflexivity|lia|lia|reflexivity|].
  exists w', new. split; [exact Hp|]. split; [exact Hc|].
  destruct (Hk 1%nat {| coord.x := 1; coord.y := 0; coord.index := 1 |})
    as [_ H]; [vm_compute; reflexivity|exact H].
Defined.

Lemma pass_leaves_chars_witness :
  let w := {| world.buffer := [VObj ∅; VStr "x"];
              world.userData := tt; world.calls := [] |} in
  let s := plain_settings 2 1 (Some (num_of_Z 30)) in
  let ctx := getContext (Tracker := idle_tracker)
               {| state.time := num_of_Z 0; state.frame := 0;
                  state.cycle := 0; state.fps := num_of_Z 30 |}
               s sample_metrics tt pre_element in
  exists w',
    main_pass dots ctx sample_cursor w = Done w'
    /\ Forall has_char (world.buffer w').
Proof.
  intros w s ctx.
  apply (pass_leaves_chars (U := unit) dots
           (fun _ _ _ b u => Done (VStr ".", b, u)) ctx sample_cursor
           2 1 w eq_refl (dots_reads_only _ eq_refl));
    [vm_compute; reflexivity|vm_compute; reflexivity|lia|lia|reflexivity].
Defined.

(* ================================================================== *)
(** * Properties of the functions of num.js *)
(* ================================================================== *)

Lemma num_gt_lt (a b : num) : num_gt a b = num_lt b a.
Proof.
  unfold num_gt, num_lt, ext_lt.
  destruct a as [|[]|a], b as [|[]|b]; simpl; try reflexivity.
  rewrite <- (Qcompare_antisym a b). now destruct (a ?= b)%Q.
Qed.

Lemma num_lt_irrefl (a : num) : num_lt a a = false.
Proof.
  unfold num_lt, ext_lt. destruct a as [|[]|a]; simpl; try reflexivity.
  now rewrite Qcompare_refl.
Qed.

Lemma num_lt_asym (a b : num) : num_lt a b = true -> num_lt b a = false.
Proof.
  unfold num_lt, ext_lt.
  destruct a as [|[]|a], b as [|[]|b]; simpl; try easy.
  rewrite <- (Qcompare_antisym a b). now destruct (a ?= b)%Q.
Qed.

(** X21.  For bounds with [max < min] false, [clamp] returns [v] or one
    of the bounds; the result is neither below [min] nor above [max];
    clamping it again changes nothing; and a [v] neither below [min] nor
    above [max] (NaN included) is returned as it is. *)
Theorem clamp_within (v lo hi : num) :
  num_lt hi lo = false ->
  let c := numjs.clamp v lo hi in
  (c = v \/ c = lo \/ c = hi)
  /\ num_lt c lo = false /\ num_gt c hi = false
  /\ numjs.clamp c lo hi = c
  /\ (num_lt v lo = false -> num_gt v hi = false -> c = v).
Proof.
  intros Hord c. unfold c, numjs.clamp.
  destruct (num_lt v lo) eqn:E1.
  - rewrite ?num_gt_lt, ?num_lt_irrefl, ?Hord.
    repeat split; auto. discriminate.
  - destruct (num_gt v hi) eqn:E2.
    + rewrite ?num_gt_lt, ?num_lt_irrefl, ?Hord.
      repeat split; auto. discriminate.
    + rewrite ?E1, ?E2. repeat split; auto.
Qed.

Lemma clamp_within_witness :
  num_lt (num_of_Z 1) (num_of_Z 0) = false
  /\ numjs.clamp (num_of_Z 5) (num_of_Z 0) (num_of_Z 1) = num_of_Z 1
  /\ num_gt (numjs.clamp NaN (num_of_Z 0) (num_of_Z 1)) (num_of_Z 1) = false
  /\ numjs.clamp (numjs.clamp (num_of_Z (-3)) (num_of_Z 0) (num_of_Z 1))
       (num_of_Z 0) (num_of_Z 1)
     = numjs.clamp (num_of_Z (-3)) (num_of_Z 0) (num_of_Z 1).
Proof.
  assert (H : num_lt (num_of_Z 1) (num_of_Z 0) = false) by reflexivity.
  split; [exact H|]. split; [reflexivity|].
  destruct (clamp_within NaN (num_of_Z 0) (num_of_Z 1) H) as (_ & _ & H1 & _).
  destruct (clamp_within (num_of_Z (-3)) (num_of_Z 0) (num_of_Z 1) H)
    as (_ & _ & _ & H2 & _).
  split; [exact H1|exact H2].
Defined.

Lemma clamp_NaN (lo hi : num) : numjs.clamp NaN lo hi = NaN.
Proof. reflexivity. Qed.

Lemma Qcompare_opp_0 (q : Q) : (- q ?= 0)%Q = CompOpp (q ?= 0)%Q.
Proof.
  destruct q as [n d]. unfold Qcompare. simpl. rewrite !Z.mul_1_r.
  now destruct n.
Qed.

(** X22.  [sign] returns 1, -1 or 0: 1 exactly on the numbers above 0,
    -1 exactly on those below 0 (so 0 on zero and on NaN), and the sign
    of [-n] is the opposite of the sign of [n]. *)
Theorem sign_values (n : num) :
  (numjs.sign n = num_of_Z 1 \/ numjs.sign n = num_of_Z (-1)
   \/ numjs.sign n = num_of_Z 0)
  /\ (numjs.sign n = num_of_Z 1 <-> num_gt n (num_of_Z 0) = true)
  /\ (numjs.sign n = num_of_Z (-1) <-> num_lt n (num_of_Z 0) = true)
  /\ numjs.sign (ext_neg Qopp n) = ext_neg Qopp (numjs.sign n).
Proof.
  unfold numjs.sign, num_gt, num_lt, ext_lt, num_of_Z.
  destruct n as [|[]|q]; simpl.
  - split; [auto|]. split; [split; discriminate|].
    split; [split; discriminate|reflexivity].
  - split; [auto|]. split; [split; discriminate|].
    split; [split; reflexivity|reflexivity].
  - split; [auto|]. split; [split; reflexivity|].
    split; [split; discriminate|reflexivity].
  - change (inject_Z 0) with 0%Q. rewrite Qcompare_opp_0.
    destruct (q ?= 0)%Q; simpl.
    + split; [auto|]. split; [split; discriminate|].
      split; [split; discriminate|reflexivity].
    + split; [auto|]. split; [split; discriminate|].
      split; [split; reflexivity|reflexivity].
    + split; [auto|]. split; [split; reflexivity|].
      split; [split; discriminate|reflexivity].
Qed.







